(** * The proxx game board: roving focus, input routing and state sync

    A shallow embedding of [src/services/preact-canvas/components/board/index.tsx]
    (class [Board]).  The component is imperative DOM code, so the embedding
    threads an explicit [World] (the component's private fields, the button
    elements it created, the document's active element and the renderer's
    focus indicator) through a small monad that also records the calls made
    on collaborators and can end in a JavaScript [TypeError]. *)

From Stdlib Require Import ZArith Bool Ascii Strings.String DecimalString.
From stdpp Require Import gmap strings list fin_maps.

Open Scope Z_scope.

(** ** Data model *)

(** [Cell] of [gamelogic/types]: the five fields the board reads. *)
Record Cell := mkCell {
  flagged : bool;
  hasMine : bool;
  revealed : bool;
  touchingFlags : Z;
  touchingMines : Z
}.

Definition defaultCell : Cell :=
  {| flagged := false; hasMine := false; revealed := false;
     touchingFlags := 0; touchingMines := 0 |}.

(** One entry of [stateChange.gridChanges]: the tuple [[x, y, cell]]. *)
Abbreviation GridChange := (Z * Z * Cell)%type.

(** [StateChange]: [gridChanges] is an optional field; [None] is the absent
    field, [Some []] an empty array (which JavaScript treats as truthy). *)
Record StateChange := { gridChanges : option (list GridChange) }.

(** The value kept per button in the WeakMap: the array [[x, y, cell]]. *)
Abbreviation ButtonData := (Z * Z * Cell)%type.

(** The part of [Props] that is data; the collaborators ([renderer],
    [animator], [onCellClick]) appear as recorded [Effect]s. *)
Record Props := { width : Z; height : Z }.

(** DOM elements by identity.  [Button id] is the [id]-th button element the
    component created; [OtherElement] is anything else an event or
    [document.activeElement] may name (the body, a table cell, ...). *)
Inductive Element :=
| Button (id : nat)
| OtherElement (id : nat).

Definition body : Element := OtherElement 0.

Global Instance Element_eq_dec : EqDecision Element.
Proof. solve_decision. Defined.

(** A button element: its attributes and whether the [blur] listener
    ([removeFocusVisual]) has been registered on it. *)
Record HTMLButtonElement := {
  attributes : gmap string string;
  blurListener : bool
}.

Record World := mkWorld {
  heap : list HTMLButtonElement;                 (* created button elements *)
  _buttons : list Element;                       (* this._buttons            *)
  _additionalButtonData : gmap nat ButtonData;   (* the WeakMap, by button   *)
  _currentTabableBtn : option Element;           (* this._currentTabableBtn  *)
  activeElement : option Element;                (* document.activeElement   *)
  rendererFocus : Z * Z                          (* renderer focus indicator *)
}.

(** Calls on collaborators, on the event object and attribute writes, in the
    order the code makes them. *)
Inductive Effect :=
| SetAttribute (target : Element) (name value : string)
| RendererSetFocus (x y : Z)
| AnimatorUpdateCells (batch : list GridChange)
| OnCellClick (data : option ButtonData) (alt : bool)
| PreventDefault
| StopPropagation.

(** ** The monad: state, recorded effects, and TypeError *)

Inductive Completion (A : Type) :=
| Normal (a : A)
| TypeError.
Arguments Normal {A} a.
Arguments TypeError {A}.

Record Outcome (A : Type) := mkOutcome {
  result : Completion A;
  final : World;
  trace : list Effect
}.
Arguments mkOutcome {A}.
Arguments result {A}.
Arguments final {A}.
Arguments trace {A}.

Definition M (A : Type) : Type := World -> Outcome A.

Definition ret {A} (a : A) : M A := fun w => mkOutcome (Normal a) w [].

Definition throw {A} : M A := fun w => mkOutcome TypeError w [].

Definition bind {A B} (m : M A) (k : A -> M B) : M B := fun w =>
  let o := m w in
  match result o with
  | Normal a =>
      let o' := k a (final o) in
      mkOutcome (result o') (final o') (trace o ++ trace o')
  | TypeError => mkOutcome TypeError (final o) (trace o)
  end.

Notation "x <- m ;; k" := (bind m (fun x => k))
  (at level 100, m at next level, right associativity).
Notation "m ;; k" := (bind m (fun _ => k))
  (at level 100, right associativity).

Definition emit (e : Effect) : M unit := fun w => mkOutcome (Normal tt) w [e].

Definition gets {A} (f : World -> A) : M A := fun w => mkOutcome (Normal (f w)) w [].

Definition modify (f : World -> World) : M unit := fun w => mkOutcome (Normal tt) (f w) [].

(** A [for ... of] loop, and [for (let i = 0; i < n; i++)]. *)
Fixpoint forEach {A} (l : list A) (body : A -> M unit) : M unit :=
  match l with
  | [] => ret tt
  | a :: l' => body a ;; forEach l' body
  end.

Definition forUpTo (n : Z) (body : Z -> M unit) : M unit :=
  forEach (seq 0 (Z.to_nat n)) (fun i => body (Z.of_nat i)).

(** ** Field updates *)

Definition set_heap (h : list HTMLButtonElement) (w : World) : World :=
  mkWorld h (_buttons w) (_additionalButtonData w) (_currentTabableBtn w)
          (activeElement w) (rendererFocus w).

Definition set_buttons (b : list Element) (w : World) : World :=
  mkWorld (heap w) b (_additionalButtonData w) (_currentTabableBtn w)
          (activeElement w) (rendererFocus w).

Definition set_additionalButtonData (m : gmap nat ButtonData) (w : World) : World :=
  mkWorld (heap w) (_buttons w) m (_currentTabableBtn w)
          (activeElement w) (rendererFocus w).

Definition set_currentTabableBtn (e : option Element) (w : World) : World :=
  mkWorld (heap w) (_buttons w) (_additionalButtonData w) e
          (activeElement w) (rendererFocus w).

Definition set_activeElement (e : option Element) (w : World) : World :=
  mkWorld (heap w) (_buttons w) (_additionalButtonData w) (_currentTabableBtn w)
          e (rendererFocus w).

Definition set_rendererFocus (p : Z * Z) (w : World) : World :=
  mkWorld (heap w) (_buttons w) (_additionalButtonData w) (_currentTabableBtn w)
          (activeElement w) p.

(** ** Platform primitives *)

(** Template-literal conversion of an integer number: its decimal string. *)
Definition decimal (z : Z) : string := NilZero.string_of_int (Z.to_int z).

(** [setAttribute] on an HTML element lower-cases the attribute name, so
    ["tabIndex"] and ["tabindex"] name one attribute. *)
Definition lower_ascii (c : ascii) : ascii :=
  let n := nat_of_ascii c in
  if ((65 <=? n) && (n <=? 90))%nat then ascii_of_nat (n + 32) else c.

Fixpoint lower (s : string) : string :=
  match s with
  | EmptyString => EmptyString
  | String c s' => String (lower_ascii c) (lower s')
  end.

Definition write_attribute (name value : string) (b : HTMLButtonElement)
  : HTMLButtonElement :=
  {| attributes := <[lower name := value]> (attributes b);
     blurListener := blurListener b |}.

(** [el.setAttribute(name, value)]; calling it on [undefined] is a TypeError.
    Attributes of elements outside the grid are not part of the state. *)
Definition setAttribute (el : option Element) (name value : string) : M unit :=
  match el with
  | None => throw
  | Some e =>
      emit (SetAttribute e (lower name) value) ;;
      match e with
      | Button id =>
          modify (fun w => set_heap (alter (write_attribute name value) id (heap w)) w)
      | OtherElement _ => ret tt
      end
  end.

Definition getAttribute (w : World) (id : nat) (name : string) : option string :=
  b ← heap w !! id; attributes b !! name.

(** [document.createElement("button")]: a fresh element without attributes. *)
Definition createButton : M Element := fun w =>
  mkOutcome (Normal (Button (length (heap w))))
            (set_heap (heap w ++ [{| attributes := ∅; blurListener := false |}]) w)
            [].

(** [button.addEventListener("blur", this.removeFocusVisual)]. *)
Definition addBlurListener (e : Element) : M unit :=
  match e with
  | Button id =>
      modify (fun w => set_heap
        (alter (fun b => {| attributes := attributes b; blurListener := true |})
               id (heap w)) w)
  | OtherElement _ => ret tt
  end.

(** [this._additionalButtonData.get(el)], [.has(el)] and [.set(el, v)];
    only buttons are ever keys, and [null]/[undefined] are never found. *)
Definition weakGet (el : option Element) : M (option ButtonData) :=
  gets (fun w => match el with
                 | Some (Button id) => _additionalButtonData w !! id
                 | _ => None
                 end).

Definition weakHas (el : option Element) : M bool :=
  d <- weakGet el ;; ret (bool_decide (is_Some d)).

Definition weakSet (el : Element) (d : ButtonData) : M unit :=
  match el with
  | Button id =>
      modify (fun w => set_additionalButtonData
                         (<[id := d]> (_additionalButtonData w)) w)
  | OtherElement _ => ret tt
  end.

(** [this._buttons[k]] for a number [k]: [undefined] outside the array. *)
Definition buttonAt (k : Z) : M (option Element) :=
  gets (fun w => if 0 <=? k then _buttons w !! Z.to_nat k else None).

(** Modelled from the spec: [this.props.renderer.setFocus(x, y)].  The
    renderer is an external collaborator whose [setFocus(x, y)] shows the
    focus indicator at [(x, y)] and clears it for [(-1, -1)]; its state is
    the last coordinate it was given. *)
Definition renderer_setFocus (x y : Z) : M unit :=
  emit (RendererSetFocus x y) ;; modify (set_rendererFocus (x, y)).

Definition removeFocusVisual : M unit := renderer_setFocus (-1) (-1).

(** The platform delivers [blur] to the element that loses focus; on a grid
    button the registered listener is [removeFocusVisual]. *)
Definition fireBlur (el : option Element) : M unit :=
  match el with
  | Some (Button id) =>
      b <- gets (fun w => heap w !! id) ;;
      match b with
      | Some b => if blurListener b then removeFocusVisual else ret tt
      | None => ret tt
      end
  | _ => ret tt
  end.

(** [el.focus()]: nothing when [el] already has focus; otherwise the element
    that had focus is blurred and [el] becomes [document.activeElement]. *)
Definition focus (el : option Element) : M unit :=
  match el with
  | None => throw
  | Some e =>
      active <- gets activeElement ;;
      if bool_decide (active = Some e) then ret tt
      else fireBlur active ;; modify (set_activeElement (Some e))
  end.

(** [el.blur()]: focus returns to the body. *)
Definition blur (el : option Element) : M unit :=
  match el with
  | None => throw
  | Some e =>
      active <- gets activeElement ;;
      if bool_decide (active = Some e)
      then fireBlur active ;; modify (set_activeElement (Some body))
      else ret tt
  end.

(** ** The component: class [Board] *)

Section Board.

(** [props.width], [props.height], and the two imported constants
    [isFeaturePhone] and [cellFocusMode] that select the behaviour for
    constrained-input devices. *)
Variable props : Props.
Variables isFeaturePhone cellFocusMode : bool.

(** The label computed at the top of [_updateButton]. *)
Definition cellState (cell : Cell) : string :=
  if negb (revealed cell) then
    if flagged cell then "flag" else "hidden"
  else if hasMine cell then "black hole"
  else if touchingMines cell =? 0 then "blank"
  else decimal (touchingMines cell).

Definition _updateButton (btn : option Element) (cell : Cell) (x y : Z) : M unit :=
  setAttribute btn "aria-label" (cellState cell) ;;
  d <- weakGet btn ;;
  match btn, d with
  | Some b, Some (bx, by_, _) => weakSet b (bx, by_, cell)
  | _, _ => throw
  end.

Definition _doManualDomHandling (stateChange : StateChange) : M unit :=
  match gridChanges stateChange with
  | None => ret tt
  | Some changes =>
      forEach changes (fun '(x, y, cell) =>
        btn <- buttonAt (y * width props + x) ;;
        _updateButton btn cell x y) ;;
      emit (AnimatorUpdateCells changes)
  end.

(** The body of the inner loop of [_createTable]. *)
Definition createCell (row col : Z) : M unit :=
  let y := row in
  let x := col in
  button <- createButton ;;
  (if (row =? 0) && (col =? 0) then
     setAttribute (Some button) "tabindex" "0" ;;
     modify (set_currentTabableBtn (Some button))
   else
     setAttribute (Some button) "tabindex" "-1") ;;
  addBlurListener button ;;
  weakSet button (x, y, defaultCell) ;;
  _updateButton (Some button) defaultCell x y ;;
  modify (fun w => set_buttons (_buttons w ++ [button]) w).

Definition _createTable (width height : Z) : M unit :=
  forUpTo height (fun row =>
    forUpTo width (fun col => createCell row col)).

(** [this._buttons[0].closest("td")]: a TypeError on an empty grid. *)
Definition _queryFirstCellRect : M unit :=
  b <- buttonAt 0 ;;
  match b with
  | Some _ => ret tt
  | None => throw
  end.

Definition componentDidMount : M unit :=
  _createTable (width props) (height props) ;;
  _queryFirstCellRect.

Definition setFocusVisual (button : option Element) : M unit :=
  d <- weakGet button ;;
  match d with
  | Some (x, y, _) => renderer_setFocus x y
  | None => throw
  end.

Definition setFocus (newFocusBtn : option Element) : M unit :=
  current <- gets _currentTabableBtn ;;
  setAttribute current "tabIndex" "-1" ;;
  setAttribute newFocusBtn "tabIndex" "0" ;;
  modify (set_currentTabableBtn newFocusBtn) ;;
  focus newFocusBtn ;;
  setFocusVisual newFocusBtn.

Definition moveFocusWithMouse (target : Element) : M unit :=
  let targetBtn := Some target in
  targetIsBtn <- weakHas targetBtn ;;
  if negb targetIsBtn then removeFocusVisual
  else
    activeBtn <- gets activeElement ;;
    activeIsBtn <- weakHas activeBtn ;;
    (if activeIsBtn && negb (bool_decide (activeBtn = targetBtn))
     then blur activeBtn else ret tt) ;;
    setFocus targetBtn.

Definition moveFocusByKey (h v : Z) : M unit :=
  emit StopPropagation ;;
  currentBtn <- gets activeElement ;;
  btnInfo <- weakGet currentBtn ;;
  btnInfo <- match btnInfo with
             | Some d => ret (Some d)
             | None =>
                 tabable <- gets _currentTabableBtn ;;
                 focus tabable ;;
                 weakGet tabable
             end ;;
  match btnInfo with
  | None => throw
  | Some (x, y, _) =>
      let newX := x + h in
      let newY := y + v in
      if (newX <? 0) || (newX >=? width props)
         || ((newY <? 0) || (newY >=? height props))
      then ret tt
      else
        let nextIndex := newX + newY * width props in
        nextBtn <- buttonAt nextIndex ;;
        setFocus nextBtn
  end.

Definition simulateClick (button : option Element) (alt : bool) : M unit :=
  buttonData <- weakGet button ;;
  emit (OnCellClick buttonData alt).

Definition onKeyUpOnTable (key : string) : M unit :=
  if String.eqb key "Tab" then moveFocusByKey 0 0 else ret tt.

Definition onKeyDownOnTable (key : string) : M unit :=
  if String.eqb key "Enter" || String.eqb key "8" then
    button <- gets activeElement ;;
    match button with
    | None => ret tt
    | Some _ =>
        emit PreventDefault ;;
        simulateClick button false
    end
  else if String.eqb key "ArrowRight" || String.eqb key "9" then
    moveFocusByKey 1 0
  else if String.eqb key "ArrowLeft" || String.eqb key "7" then
    moveFocusByKey (-1) 0
  else if String.eqb key "ArrowUp" || String.eqb key "5" then
    moveFocusByKey 0 (-1)
  else if String.eqb key "ArrowDown" || String.eqb key "0" then
    moveFocusByKey 0 1
  else ret tt.

Definition _onKeyUp (key : string) : M unit :=
  if (isFeaturePhone || cellFocusMode)
     && (String.eqb key "9" || String.eqb key "7"
         || String.eqb key "5" || String.eqb key "0")
  then moveFocusByKey 0 0
  else ret tt.

Definition onMouseUp (target : Element) (button : Z) : M unit :=
  let targetButton := Some target in
  targetButtonData <- weakGet targetButton ;;
  match targetButtonData with
  | None => ret tt
  | Some _ =>
      emit PreventDefault ;;
      targetButton <-
        (if isFeaturePhone || cellFocusMode then
           activeButton <- gets activeElement ;;
           isActiveBtn <- weakHas activeButton ;;
           if negb isActiveBtn then
             setFocus targetButton ;; ret targetButton
           else ret activeButton
         else ret targetButton) ;;
      if negb (button =? 2) then simulateClick targetButton false
      else simulateClick targetButton true
  end.

Definition onMouseDown : M unit := emit PreventDefault.

(** ** The component as a reactive system *)

(** What can happen to a mounted board: the DOM events its listeners are
    registered for, a push from the game-logic subscription, and the user
    or the platform moving input focus without the component's doing. *)
Inductive Input :=
| KeyDownOnTable (key : string)
| KeyUpOnTable (key : string)
| KeyUpOnWindow (key : string)
| MouseUpOnTable (target : Element) (button : Z)
| MouseDownOnTable
| MouseMoveOnTable (target : Element)
| ContextMenuOnTable
| GameChange (stateChange : StateChange)
| PlatformFocus (el : option Element).

(** The [mousemove] listener exists only when [_createTable] registered
    it, that is, on a constrained-input device. *)
Definition dispatch (i : Input) : M unit :=
  match i with
  | KeyDownOnTable key => onKeyDownOnTable key
  | KeyUpOnTable key => onKeyUpOnTable key
  | KeyUpOnWindow key => _onKeyUp key
  | MouseUpOnTable target button => onMouseUp target button
  | MouseDownOnTable => onMouseDown
  | MouseMoveOnTable target =>
      if isFeaturePhone || cellFocusMode then moveFocusWithMouse target
      else ret tt
  | ContextMenuOnTable => emit PreventDefault
  | GameChange stateChange => _doManualDomHandling stateChange
  | PlatformFocus el =>
      active <- gets activeElement ;;
      if bool_decide (active = el) then ret tt
      else fireBlur active ;; modify (set_activeElement el)
  end.

(** The world before the component is mounted. *)
Definition unmounted : World :=
  mkWorld [] [] ∅ None (Some body) (-1, -1).

Definition mounted : World := final (componentDidMount unmounted).

(** The world after a history of inputs; a handler that throws leaves the
    world as it was at the throw, and the next input finds it so. *)
Definition run (history : list Input) : World :=
  fold_left (fun w i => final (dispatch i w)) history mounted.

End Board.

(** * Vocabulary of the properties *)

(** [wp m w Q]: running [m] in world [w] ends in a completion, a world and a
    trace that satisfy [Q].  The rules below execute monadic code one
    statement at a time without duplicating the world. *)
Definition wp {A} (m : M A) (w : World)
           (Q : Completion A -> World -> list Effect -> Prop) : Prop :=
  Q (result (m w)) (final (m w)) (trace (m w)).

(** The heap after [setFocus]: the old tab stop [c] gets [tabindex="-1"],
    then the new one [t] gets [tabindex="0"]. *)
Definition focused_heap (c : Element) (t : nat) (h : list HTMLButtonElement)
  : list HTMLButtonElement :=
  alter (write_attribute "tabIndex" "0") t
    (match c with
     | Button c => alter (write_attribute "tabIndex" "-1") c h
     | OtherElement _ => h
     end).

(** What [el.focus()] makes the renderer do: the blur listener of the
    button that loses focus clears the indicator. *)
Definition blur_effects (w : World) (e : Element) : list Effect :=
  if bool_decide (activeElement w = Some e) then []
  else match activeElement w with
       | Some (Button a) =>
           match heap w !! a with
           | Some b => if blurListener b then [RendererSetFocus (-1) (-1)] else []
           | None => []
           end
       | _ => []
       end.

(** The effect of [_updateButton] on the button [id]: a new label and a new
    stored cell, the coordinate kept. *)
Definition updated (id : nat) (cell : Cell) (w : World) : World :=
    set_additionalButtonData
      (alter (fun d : ButtonData => (fst d, cell)) id (_additionalButtonData w))
      (set_heap (alter (write_attribute "aria-label" (cellState cell)) id (heap w)) w).

(** The button one iteration of the inner loop of [_createTable] leaves. *)
Definition new_button (first : bool) : HTMLButtonElement :=
  {| attributes := <["aria-label" := "hidden"]>
                     (<["tabindex" := if first then "0" else "-1"]> ∅);
     blurListener := true |}.

(** The effect of one iteration of the inner loop. *)
Definition cell_added (row col : Z) (w : World) : World :=
  let first := (row =? 0) && (col =? 0) in
  mkWorld (heap w ++ [new_button first])
          (_buttons w ++ [Button (length (heap w))])
          (<[length (heap w) := (col, row, defaultCell)]> (_additionalButtonData w))
          (if first then Some (Button (length (heap w))) else _currentTabableBtn w)
          (activeElement w) (rendererFocus w).

Section Vocabulary.

Variable props : Props.

(** Row-major position of the [id]-th button. *)
Definition coordinates (id : nat) : Z * Z :=
  (Z.of_nat id mod width props, Z.of_nat id / width props).

(** The shape [_createTable] builds and no handler disturbs: the array
    lists the created buttons in order, there are [width * height] of them,
    and the WeakMap holds exactly these, each with its own coordinate. *)
Record grid_ok (w : World) : Prop := {
  ok_buttons : _buttons w = Button <$> seq 0 (length (heap w));
  ok_size : Z.of_nat (length (heap w)) = width props * height props;
  ok_data : forall id, (id < length (heap w))%nat ->
    exists cell, _additionalButtonData w !! id = Some (coordinates id, cell);
  ok_keys : forall id, is_Some (_additionalButtonData w !! id) ->
    (id < length (heap w))%nat;
  ok_blur : forall id b, heap w !! id = Some b -> blurListener b = true
}.

(** Roving tabindex: [t] is the tab stop and is the only button with
    [tabindex="0"]; every other button has [tabindex="-1"]. *)
Definition roving (w : World) (t : nat) : Prop :=
  _currentTabableBtn w = Some (Button t) /\ (t < length (heap w))%nat /\
  forall id, (id < length (heap w))%nat ->
    getAttribute w id "tabindex" = Some (if bool_decide (id = t) then "0" else "-1").

Definition wf (w : World) : Prop :=
  0 < width props /\ 0 < height props /\ grid_ok w /\ exists t, roving w t.

(** The state of the loops of [_createTable] after [k] cells. *)
Record built (k : nat) (w : World) : Prop := {
  built_length : length (heap w) = k;
  built_buttons : _buttons w = Button <$> seq 0 k;
  built_data : forall id, (id < k)%nat ->
    _additionalButtonData w !! id = Some (coordinates id, defaultCell);
  built_keys : forall id, is_Some (_additionalButtonData w !! id) -> (id < k)%nat;
  built_heap : forall id, (id < k)%nat ->
    heap w !! id = Some (new_button (bool_decide (id = 0%nat)));
  built_tabable : _currentTabableBtn w
                  = if bool_decide (k = 0%nat) then None else Some (Button 0);
  built_active : activeElement w = Some body;
  built_renderer : rendererFocus w = (-1, -1)
}.

(** [this._additionalButtonData.has(el)] as a test on the world. *)
Definition inGrid (w : World) (el : option Element) : bool :=
  match el with
  | Some (Button id) => bool_decide (is_Some (_additionalButtonData w !! id))
  | _ => false
  end.

(** The coordinate the WeakMap holds for an element. *)
Definition position (w : World) (el : option Element) : option (Z * Z) :=
  match el with
  | Some (Button id) => fst <$> _additionalButtonData w !! id
  | _ => None
  end.

(** The array [[x, y, cell]] the WeakMap holds for an element. *)
Definition buttonData (w : World) (el : option Element) : option ButtonData :=
  match el with
  | Some (Button id) => _additionalButtonData w !! id
  | _ => None
  end.

(** The cell the WeakMap holds for the button [id], and its label. *)
Definition storedCell (w : World) (id : nat) : option Cell :=
  snd <$> _additionalButtonData w !! id.

Definition description (w : World) (id : nat) : option string :=
  getAttribute w id "aria-label".

(** The button a key move starts from: the focused one when it is a grid
    button, the tab stop otherwise (lines 267-275 of the source). *)
Definition origin (w : World) : option Element :=
  if inGrid w (activeElement w) then activeElement w else _currentTabableBtn w.

(** The world after focus has moved to the grid button [t]. *)
Definition moved (w : World) (t : nat) : World :=
  mkWorld (focused_heap (default body (_currentTabableBtn w)) t (heap w))
          (_buttons w) (_additionalButtonData w)
          (Some (Button t)) (Some (Button t)) (coordinates t).

(** The test of line 287, negated: [(x, y)] lies on the board. *)
Definition inside (x y : Z) : bool :=
  negb ((x <? 0) || (x >=? width props) || ((y <? 0) || (y >=? height props))).

(** The array index line 149 computes for a delta, and whether
    [this._buttons] has an element there. *)
Definition targetIndex (change : GridChange) : Z :=
  let '(x, y, _) := change in y * width props + x.

Definition resolvable (change : GridChange) : bool :=
  (0 <=? targetIndex change)
  && (targetIndex change <? width props * height props).

Definition inBounds (change : GridChange) : bool :=
  let '(x, y, _) := change in
  (0 <=? x) && (x <? width props) && (0 <=? y) && (y <? height props).

(** What the body of the loop of [_doManualDomHandling] does for one delta
    whose button exists, and the attribute write it makes. *)
Definition applyChange (w : World) (change : GridChange) : World :=
  updated (Z.to_nat (targetIndex change)) (snd change) w.

Definition applyChanges (changes : list GridChange) (w : World) : World :=
  fold_left applyChange changes w.

Definition labelWrite (change : GridChange) : Effect :=
  SetAttribute (Button (Z.to_nat (targetIndex change))) "aria-label"
               (cellState (snd change)).

(** The cell of the last delta of a batch that targets the button [id]. *)
Fixpoint lastChange (changes : list GridChange) (id : nat) : option Cell :=
  match changes with
  | [] => None
  | change :: rest =>
      match lastChange rest id with
      | Some cell => Some cell
      | None => if bool_decide (Z.to_nat (targetIndex change) = id)
                then Some (snd change) else None
      end
  end.

End Vocabulary.

(** The accessibility description, in the words of the specification:
    not revealed: "flag" if flagged else "hidden"; revealed with a mine:
    "black hole"; revealed, no mine, no mine touching: "blank"; otherwise the
    decimal string of [touchingMines]. *)
Definition describe (cell : Cell) : string :=
  match revealed cell, flagged cell, hasMine cell, touchingMines cell with
  | false, true, _, _ => "flag"
  | false, false, _, _ => "hidden"
  | true, _, true, _ => "black hole"
  | true, _, false, 0 => "blank"
  | true, _, false, n => decimal n
  end.

(** The inputs that come from the user: key and pointer events. *)
Definition isUserInput (i : Input) : bool :=
  match i with
  | GameChange _ | PlatformFocus _ => false
  | _ => true
  end.

(** The calls a trace records: on the animator, on the activation callback
    and on the renderer. *)
Definition animatorCalls (tr : list Effect) : list (list GridChange) :=
  omap (fun e => match e with AnimatorUpdateCells b => Some b | _ => None end) tr.

Definition clicks (tr : list Effect) : list (option ButtonData * bool) :=
  omap (fun e => match e with OnCellClick d alt => Some (d, alt) | _ => None end) tr.

Definition rendererCalls (tr : list Effect) : list (Z * Z) :=
  omap (fun e => match e with RendererSetFocus x y => Some (x, y) | _ => None end) tr.

(** The buttons that are tab stops: those with [tabindex="0"]. *)
Definition tabStops (w : World) : list nat :=
  filter (fun id => getAttribute w id "tabindex" = Some "0")
         (seq 0 (length (heap w))).

(** The inputs that are not pushes from the game logic. *)
Definition isGameChange (i : Input) : bool :=
  match i with
  | GameChange _ => true
  | _ => false
  end.

(** The focus indicator is either cleared or on the cell of the button that
    holds platform focus. *)
Definition indicatorConsistent (w : World) : Prop :=
  rendererFocus w = (-1, -1) \/
  position w (activeElement w) = Some (rendererFocus w).

(** Every button is labelled with the description of the cell the WeakMap
    holds for it. *)
Definition labelsConsistent (w : World) : Prop :=
  forall id, (id < length (heap w))%nat ->
    exists cell, storedCell w id = Some cell /\
                 description w id = Some (cellState cell).

(** Nothing the sync bridge writes has changed between two worlds. *)
Definition sameCells (w w' : World) : Prop :=
  _buttons w' = _buttons w /\
  _additionalButtonData w' = _additionalButtonData w /\
  length (heap w') = length (heap w) /\
  forall id, description w' id = description w id.

(** Nothing the focus controller writes has changed between two worlds. *)
Definition sameFocus (w w' : World) : Prop :=
  _buttons w' = _buttons w /\
  _currentTabableBtn w' = _currentTabableBtn w /\
  activeElement w' = activeElement w /\
  rendererFocus w' = rendererFocus w /\
  length (heap w') = length (heap w) /\
  (forall id, getAttribute w' id "tabindex" = getAttribute w id "tabindex") /\
  (forall el, position w' el = position w el).

(** The worlds a key, pointer or platform-focus input can lead to. *)
Definition focusShape (props : Props) (w w' : World) : Prop :=
  w' = w \/
  (exists t, (t < length (heap w))%nat /\ w' = moved props w t) \/
  (inGrid w (activeElement w) = false /\ exists e, w' = set_activeElement e w) \/
  (exists e, w' = set_activeElement e (set_rendererFocus (-1, -1) w)) \/
  w' = set_rendererFocus (-1, -1) w.

(** Concrete boards and cells used to exercise the statements. *)
(** The arrow keys that lead from the cell (x0, y0) to the cell (x, y):
    along the row first, then along the column. *)
Definition route (x0 y0 x y : Z) : list string :=
  repeat (if x0 <=? x then "ArrowRight"%string else "ArrowLeft"%string)
         (Z.to_nat (Z.abs (x - x0)))
  ++ repeat (if y0 <=? y then "ArrowDown"%string else "ArrowUp"%string)
            (Z.to_nat (Z.abs (y - y0))).

Definition board2x2 : Props := {| width := 2; height := 2 |}.
Definition board3x3 : Props := {| width := 3; height := 3 |}.
Definition board5x5 : Props := {| width := 5; height := 5 |}.

Definition revealedBlank : Cell := mkCell false false true 0 0.
Definition revealedThree : Cell := mkCell false false true 0 3.
Definition revealedMine : Cell := mkCell false true true 0 0.
Definition hiddenFlag : Cell := mkCell true false false 0 0.

(** * Properties *)

(** ** Sequencing *)

Lemma wp_bind {A B} (m : M A) (k : A -> M B) w Q :
  wp m w (fun r w' tr =>
            match r with
            | Normal a => wp (k a) w' (fun r' w'' tr' => Q r' w'' (tr ++ tr'))
            | TypeError => Q TypeError w' tr
            end) ->
  wp (bind m k) w Q.
Proof. unfold wp, bind. destruct (result (m w)); auto. Qed.

Lemma wp_ret {A} (a : A) w Q : Q (Normal a) w [] -> wp (ret a) w Q.
Proof. auto. Qed.

Lemma wp_throw {A} w (Q : Completion A -> World -> list Effect -> Prop) :
  Q TypeError w [] -> wp throw w Q.
Proof. auto. Qed.

Lemma wp_gets {A} (f : World -> A) w Q : Q (Normal (f w)) w [] -> wp (gets f) w Q.
Proof. auto. Qed.

Lemma wp_modify (f : World -> World) w Q : Q (Normal tt) (f w) [] -> wp (modify f) w Q.
Proof. auto. Qed.

Lemma wp_emit (e : Effect) w Q : Q (Normal tt) w [e] -> wp (emit e) w Q.
Proof. auto. Qed.

Lemma wp_mono {A} (m : M A) w (Q Q' : Completion A -> World -> list Effect -> Prop) :
  wp m w Q -> (forall r w' tr, Q r w' tr -> Q' r w' tr) -> wp m w Q'.
Proof. unfold wp. auto. Qed.

Lemma wp_elim {A} (m : M A) w (Q : Completion A -> World -> list Effect -> Prop) :
  wp m w Q -> Q (result (m w)) (final (m w)) (trace (m w)).
Proof. auto. Qed.

Lemma wp_intro {A} (m : M A) w (Q : Completion A -> World -> list Effect -> Prop) :
  Q (result (m w)) (final (m w)) (trace (m w)) -> wp m w Q.
Proof. auto. Qed.

Global Opaque wp.

Ltac wp_fields :=
  cbv beta iota;
  cbn [result final trace heap _buttons _additionalButtonData _currentTabableBtn activeElement
       rendererFocus set_heap set_buttons set_additionalButtonData
       set_currentTabableBtn set_activeElement set_rendererFocus fst snd app
       negb andb orb].

Ltac wp_step :=
  lazymatch goal with
  | |- wp (ret _) _ _ => apply wp_ret
  | |- wp throw _ _ => apply wp_throw
  | |- wp (gets _) _ _ => apply wp_gets
  | |- wp (modify _) _ _ => apply wp_modify
  | |- wp (emit _) _ _ => apply wp_emit
  | |- wp (bind _ _) _ _ => apply wp_bind
  end;
  wp_fields.

Ltac wp_run := wp_fields; repeat wp_step.

(** Normalise nested field updates to one record. *)
Ltac world_norm :=
  unfold set_heap, set_buttons, set_additionalButtonData,
    set_currentTabableBtn, set_activeElement, set_rendererFocus in *;
  cbn [result final trace heap _buttons _additionalButtonData
       _currentTabableBtn activeElement rendererFocus] in *.

(** ** Attribute writes on the heap *)

Lemma attribute_written (h : list HTMLButtonElement) id name value :
  (id < length h)%nat ->
  (b ← alter (write_attribute name value) id h !! id; attributes b !! lower name)
  = Some value.
Proof.
  intros Hlt. destruct (lookup_lt_is_Some_2 h id Hlt) as [b Hb].
  rewrite list_lookup_alter_eq, Hb. cbn [fmap option_fmap option_map mbind option_bind].
  apply lookup_insert_eq.
Qed.

Lemma attribute_kept (h : list HTMLButtonElement) id id' name name' value :
  id <> id' \/ lower name <> name' ->
  (b ← alter (write_attribute name value) id h !! id'; attributes b !! name')
  = (b ← h !! id'; attributes b !! name').
Proof.
  intros Hne. destruct (decide (id = id')) as [->|Hid].
  - destruct Hne as [Hne|Hne]; [done|].
    rewrite list_lookup_alter_eq. destruct (h !! id') as [b|]; [|done].
    cbn [fmap option_fmap option_map mbind option_bind].
    apply lookup_insert_ne. exact Hne.
  - by rewrite list_lookup_alter_ne.
Qed.

Lemma blurListener_kept (h : list HTMLButtonElement) id id' name value :
  blurListener <$> (alter (write_attribute name value) id h !! id')
  = blurListener <$> (h !! id').
Proof.
  destruct (decide (id = id')) as [->|Hid].
  - rewrite list_lookup_alter_eq. by destruct (h !! id').
  - by rewrite list_lookup_alter_ne.
Qed.

(** ** [setFocus] in closed form *)



Lemma focus_wp (w : World) (e : Element) :
  wp (focus (Some e)) w (fun r w' tr =>
    r = Normal tt /\ tr = blur_effects w e /\
    heap w' = heap w /\ _buttons w' = _buttons w /\
    _additionalButtonData w' = _additionalButtonData w /\
    _currentTabableBtn w' = _currentTabableBtn w /\
    activeElement w' = Some e /\
    (tr = [] -> rendererFocus w' = rendererFocus w)).
Proof.
  unfold focus, fireBlur, removeFocusVisual, renderer_setFocus, blur_effects.
  wp_run. case_bool_decide as Ha; wp_run; [by rewrite Ha|].
  destruct (activeElement w) as [[a|a]|]; wp_run; try done.
  destruct (heap w !! a) as [b|]; [destruct (blurListener b)|]; wp_run; done.
Qed.

Lemma setFocus_wp (w : World) (c : Element) (t : nat) (d : ButtonData) :
  _currentTabableBtn w = Some c ->
  _additionalButtonData w !! t = Some d ->
  wp (setFocus (Some (Button t))) w (fun r w' tr =>
    r = Normal tt /\
    w' = mkWorld (focused_heap c t (heap w)) (_buttons w) (_additionalButtonData w)
            (Some (Button t)) (Some (Button t)) (fst d) /\
    exists blurred,
      tr = [SetAttribute c "tabindex" "-1"; SetAttribute (Button t) "tabindex" "0"]
           ++ blurred ++ [RendererSetFocus (fst (fst d)) (snd (fst d))] /\
      (blurred = [] \/ blurred = [RendererSetFocus (-1) (-1)])).
Proof.
  intros Hc Hd. destruct d as [[x y] cell].
  unfold setFocus, setAttribute, focus, fireBlur, setFocusVisual,
    removeFocusVisual, renderer_setFocus, weakGet.
  wp_run. rewrite Hc. destruct c as [c|c]; wp_run.
  all: case_bool_decide as Ha; wp_run; rewrite ?Hd; wp_run.
  1,3: split; [reflexivity|]; split;
    [world_norm; rewrite Ha; reflexivity | exists []; split; [reflexivity|by left]].
  all: destruct (activeElement w) as [[a|a]|]; wp_run; rewrite ?Hd; wp_run.
  all: try (split; [reflexivity|]; split;
    [reflexivity | exists []; split; [reflexivity|by left]]).
  all: destruct (_ !! a) as [b|]; [destruct (blurListener b)|]; wp_run;
    rewrite ?Hd; wp_run.
  all: split; [reflexivity|]; split; [reflexivity|].
  all: first [ exists []; split; [reflexivity|by left]
             | exists [RendererSetFocus (-1) (-1)]; split; [reflexivity|by right] ].
Qed.

(** ** The grid invariant *)

Lemma lower_tabIndex : lower "tabIndex" = "tabindex".
Proof. reflexivity. Qed.

Lemma lower_aria_label : lower "aria-label" = "aria-label".
Proof. reflexivity. Qed.

Section Invariant.

Variable props : Props.


Lemma wf_frame (w w' : World) :
  heap w' = heap w -> _buttons w' = _buttons w ->
  _additionalButtonData w' = _additionalButtonData w ->
  _currentTabableBtn w' = _currentTabableBtn w ->
  wf props w -> wf props w'.
Proof.
  intros Hh Hb Hd Hc (HW & HH & [] & t & Ht1 & Ht2 & Ht3).
  split; [done|]. split; [done|]. split.
  - split; rewrite ?Hh, ?Hb, ?Hd; auto.
  - exists t. unfold roving, getAttribute in *. rewrite Hh, Hc. auto.
Qed.

Lemma wf_lookup_button (w : World) (k : Z) :
  wf props w -> 0 <= k < width props * height props ->
  _buttons w !! Z.to_nat k = Some (Button (Z.to_nat k)) /\
  (Z.to_nat k < length (heap w))%nat.
Proof.
  intros (HW & HH & [] & _) Hk.
  assert (Z.to_nat k < length (heap w))%nat as Hlt by lia.
  split; [|done]. rewrite ok_buttons0, list_lookup_fmap.
  rewrite lookup_seq_lt by done. done.
Qed.

Lemma wf_lookup_outside (w : World) (k : Z) :
  wf props w -> ~ (0 <= k < width props * height props) ->
  (if 0 <=? k then _buttons w !! Z.to_nat k else None) = None.
Proof.
  intros (HW & HH & [] & _) Hk. destruct (Z.leb_spec 0 k); [|done].
  rewrite ok_buttons0, list_lookup_fmap, lookup_seq_ge; [done|lia].
Qed.

Lemma coordinates_index (x y : Z) :
  0 <= x < width props -> 0 <= y ->
  coordinates props (Z.to_nat (x + y * width props)) = (x, y).
Proof.
  intros Hx Hy. unfold coordinates. rewrite Z2Nat.id by nia.
  f_equal.
  - rewrite Z.mod_add by lia. apply Z.mod_small; lia.
  - rewrite Z.div_add by lia. rewrite Z.div_small by lia. lia.
Qed.

Lemma coordinates_inside (w : World) (id : nat) :
  wf props w -> (id < length (heap w))%nat ->
  0 <= fst (coordinates props id) < width props /\
  0 <= snd (coordinates props id) < height props /\
  Z.of_nat id = fst (coordinates props id) + snd (coordinates props id) * width props.
Proof.
  intros (HW & HH & [] & _) Hid. unfold coordinates. cbn [fst snd].
  pose proof (Z.mod_pos_bound (Z.of_nat id) (width props) HW).
  pose proof (Z.div_mod (Z.of_nat id) (width props)).
  assert (0 <= Z.of_nat id / width props) by (apply Z.div_pos; lia).
  assert (Z.of_nat id / width props < height props).
  { apply Z.div_lt_upper_bound; lia. }
  lia.
Qed.

End Invariant.

Section Preservation.

Variable props : Props.

Lemma grid_ok_attribute (w w' : World) id name value :
  heap w' = alter (write_attribute name value) id (heap w) ->
  _buttons w' = _buttons w ->
  _additionalButtonData w' = _additionalButtonData w ->
  grid_ok props w -> grid_ok props w'.
Proof.
  intros Hh Hb Hd []. split; rewrite ?Hh, ?Hb, ?Hd, ?length_alter; auto.
  intros id' b Hb'.
  pose proof (blurListener_kept (heap w) id id' name value) as Hk.
  rewrite Hb' in Hk. destruct (heap w !! id') as [b'|] eqn:Hb''; [|done].
  cbn in Hk. injection Hk as ->. eauto.
Qed.

(** The world [setFocus] leaves behind is well formed, with the new tab stop. *)
Lemma wf_focused (w : World) (c : Element) (t : nat) a r :
  wf props w -> _currentTabableBtn w = Some c -> (t < length (heap w))%nat ->
  let w' := mkWorld (focused_heap c t (heap w)) (_buttons w)
                    (_additionalButtonData w) (Some (Button t)) a r in
  wf props w' /\ roving w' t.
Proof.
  intros (HW & HH & Hok & t0 & Hc0 & Ht0 & Htab) Hc Ht w'.
  rewrite Hc in Hc0. injection Hc0 as ->.
  assert (roving w' t) as Hrov.
  { split; [done|]. unfold w', focused_heap, getAttribute.
    cbn [heap]. rewrite !length_alter. split; [done|]. intros id Hid.
    destruct (decide (id = t)) as [->|Hne].
    - rewrite bool_decide_eq_true_2 by done.
      rewrite <- lower_tabIndex. apply attribute_written.
      by rewrite length_alter.
    - rewrite bool_decide_eq_false_2 by done.
      rewrite attribute_kept by (left; congruence).
      destruct (decide (id = t0)) as [->|Hne0].
      + rewrite <- lower_tabIndex. by apply attribute_written.
      + rewrite attribute_kept by (left; congruence).
        specialize (Htab id Hid). unfold getAttribute in Htab.
        by rewrite bool_decide_eq_false_2 in Htab. }
  split; [|done]. split; [done|]. split; [done|]. split; [|by exists t].
  unfold w', focused_heap.
  eapply (grid_ok_attribute
            (set_heap (alter (write_attribute "tabIndex" "-1") t0 (heap w)) w));
    [reflexivity..|].
  by eapply (grid_ok_attribute w); [reflexivity..|].
Qed.


Lemma wf_updated (w : World) (id : nat) (cell : Cell) :
  wf props w -> wf props (updated id cell w).
Proof.
  intros (HW & HH & Hok & t & Hc & Ht & Htab).
  split; [done|]. split; [done|]. split.
  - assert (grid_ok props (set_heap
      (alter (write_attribute "aria-label" (cellState cell)) id (heap w)) w))
      as [] by (by eapply (grid_ok_attribute w); [reflexivity..|]).
    split; unfold updated; world_norm; auto.
    + intros id' Hid'. destruct (ok_data0 id' Hid') as [c0 Hc0].
      rewrite length_alter in Hid'.
      destruct (decide (id = id')) as [->|Hne].
      * exists cell. rewrite lookup_alter_eq, Hc0. done.
      * exists c0. by rewrite lookup_alter_ne.
    + intros id' Hsome. apply ok_keys0.
      rewrite lookup_alter in Hsome. case_decide; [|done].
      subst. by apply fmap_is_Some in Hsome.
  - exists t. unfold roving, updated, getAttribute in *. world_norm.
    rewrite length_alter. split; [done|]. split; [done|].
    intros id' Hid'. rewrite attribute_kept; [by apply Htab|].
    right. rewrite lower_aria_label. done.
Qed.

End Preservation.

(** ** Construction: [_createTable] *)

Lemma forEach_fold {A} (body : A -> M unit) (f : World -> A -> World) (l : list A) :
  (forall a w, wp (body a) w (fun r w' _ => r = Normal tt /\ w' = f w a)) ->
  forall w, wp (forEach l body) w (fun r w' _ => r = Normal tt /\ w' = fold_left f l w).
Proof.
  intros Hbody. induction l as [|a l IH]; intros w; cbn [forEach fold_left].
  - by wp_run.
  - apply wp_bind. eapply wp_mono; [apply Hbody|].
    intros r w' tr [-> ->]. cbv beta iota.
    eapply wp_mono; [apply IH|]. by intros r w'' tr' [-> ->].
Qed.


Lemma alter_last (f : HTMLButtonElement -> HTMLButtonElement) h b :
  alter f (length h) (h ++ [b]) = h ++ [f b].
Proof.
  replace (length h) with (length h + 0)%nat at 1 by lia.
  by rewrite alter_app_r.
Qed.

Lemma createCell_wp (row col : Z) (w : World) :
  wp (createCell row col) w (fun r w' _ => r = Normal tt /\ w' = cell_added row col w).
Proof.
  unfold createCell, createButton, setAttribute, addBlurListener, weakSet,
    _updateButton, setAttribute, weakGet, weakSet.
  apply wp_bind, wp_intro. wp_fields.
  destruct ((row =? 0) && (col =? 0)) eqn:Hfirst; wp_run.
  all: rewrite lookup_insert_eq; wp_run.
  all: split; [reflexivity|]; unfold cell_added; rewrite Hfirst; world_norm.
  all: rewrite !alter_last, insert_insert_eq; reflexivity.
Qed.

Section Construction.

Variable props : Props.
Hypothesis width_pos : 0 < width props.


Lemma built_unmounted : built props 0 unmounted.
Proof.
  split; try done; try (intros id Hid; lia).
  intros id [d Hd]. unfold unmounted in Hd.
  cbn [_additionalButtonData] in Hd. by rewrite lookup_empty in Hd.
Qed.

Lemma built_cell_added (k : nat) (row col : nat) (w : World) :
  built props k w -> (col < Z.to_nat (width props))%nat ->
  k = (row * Z.to_nat (width props) + col)%nat ->
  built props (S k) (cell_added (Z.of_nat row) (Z.of_nat col) w).
Proof.
  intros [] Hcol Hk.
  assert (coordinates props k = (Z.of_nat col, Z.of_nat row)) as Hcoord.
  { replace k with (Z.to_nat (Z.of_nat col + Z.of_nat row * width props)) by nia.
    apply coordinates_index; lia. }
  assert ((Z.of_nat row =? 0) && (Z.of_nat col =? 0) = bool_decide (k = 0%nat))
    as Hfirst.
  { destruct (decide (k = 0%nat)) as [Hz|Hnz].
    - rewrite bool_decide_eq_true_2 by done.
      assert (row = 0 /\ col = 0)%nat as [-> ->] by nia. done.
    - rewrite bool_decide_eq_false_2 by done.
      apply andb_false_iff. destruct (Z.eqb_spec (Z.of_nat row) 0); [|by left].
      right. apply Z.eqb_neq. nia. }
  unfold cell_added. rewrite Hfirst, built_length0.
  split; cbn [heap _buttons _additionalButtonData _currentTabableBtn
              activeElement rendererFocus]; try done.
  - rewrite length_app, built_length0. cbn. lia.
  - rewrite built_buttons0, seq_S, fmap_app. done.
  - intros id Hid. destruct (decide (id = k)) as [->|Hne].
    + by rewrite lookup_insert_eq, Hcoord.
    + rewrite lookup_insert_ne by done. apply built_data0. lia.
  - intros id Hsome. destruct (decide (id = k)) as [->|Hne]; [lia|].
    rewrite lookup_insert_ne in Hsome by done.
    specialize (built_keys0 id Hsome). lia.
  - intros id Hid. destruct (decide (id = k)) as [->|Hne].
    + rewrite lookup_app_r by lia. rewrite built_length0, Nat.sub_diag. done.
    + rewrite lookup_app_l by lia. apply built_heap0. lia.
  - rewrite (bool_decide_eq_false_2 (S k = 0%nat)) by lia.
    case_bool_decide; [congruence|]. by rewrite built_tabable0.
Qed.

Lemma built_row (row : nat) (w : World) (cols : nat) :
  (cols <= Z.to_nat (width props))%nat ->
  built props (row * Z.to_nat (width props)) w ->
  built props (row * Z.to_nat (width props) + cols)
        (fold_left (fun w col => cell_added (Z.of_nat row) (Z.of_nat col) w)
                   (seq 0 cols) w).
Proof.
  intros Hcols Hw. induction cols as [|cols IH].
  - by rewrite Nat.add_0_r.
  - rewrite seq_S, fold_left_app. cbn [fold_left Nat.add].
    rewrite Nat.add_succ_r. eapply built_cell_added; [apply IH; lia|lia|done].
Qed.

Lemma built_rows (rows : nat) :
  built props (rows * Z.to_nat (width props))
    (fold_left (fun w row =>
       fold_left (fun w col => cell_added (Z.of_nat row) (Z.of_nat col) w)
                 (seq 0 (Z.to_nat (width props))) w)
       (seq 0 rows) unmounted).
Proof.
  induction rows as [|rows IH].
  - apply built_unmounted.
  - rewrite seq_S, fold_left_app. cbn [fold_left Nat.add].
    replace (S rows * Z.to_nat (width props))%nat
      with (rows * Z.to_nat (width props) + Z.to_nat (width props))%nat by lia.
    by apply built_row.
Qed.

Lemma createTable_wp :
  wp (_createTable (width props) (height props)) unmounted (fun r w' _ =>
    r = Normal tt /\
    built props (Z.to_nat (height props) * Z.to_nat (width props)) w').
Proof.
  unfold _createTable, forUpTo.
  eapply wp_mono.
  - apply (forEach_fold _ (fun w row =>
       fold_left (fun w col => cell_added (Z.of_nat row) (Z.of_nat col) w)
                 (seq 0 (Z.to_nat (width props))) w)).
    intros row w. apply (forEach_fold _ (fun w col =>
       cell_added (Z.of_nat row) (Z.of_nat col) w)).
    intros col w'. apply createCell_wp.
  - intros r w' _ [-> ->]. split; [done|]. apply built_rows.
Qed.

Hypothesis height_pos : 0 < height props.

Lemma mounted_built :
  result (componentDidMount props unmounted) = Normal tt /\
  built props (Z.to_nat (width props * height props)) (mounted props).
Proof.
  unfold mounted, componentDidMount, _queryFirstCellRect, buttonAt.
  apply (wp_elim _ _ (fun r w' _ => r = Normal tt /\ built props _ w')).
  apply wp_bind. eapply wp_mono; [apply createTable_wp|].
  intros r w' _ [-> Hb]. cbv beta iota.
  replace (Z.to_nat (width props * height props))
    with (Z.to_nat (height props) * Z.to_nat (width props))%nat by nia.
  wp_run. cbn [Z.leb Z.compare Z.to_nat].
  destruct Hb. rewrite built_buttons0.
  rewrite list_lookup_fmap, lookup_seq_lt by nia. cbn. by wp_run.
Qed.

Lemma built_wf (w : World) :
  built props (Z.to_nat (width props * height props)) w -> wf props w /\ roving w 0.
Proof.
  intros [].
  assert (roving w 0) as Hrov.
  { split; [by rewrite built_tabable0, bool_decide_eq_false_2 by nia|].
    split; [nia|]. intros id Hid. unfold getAttribute.
    rewrite built_heap0 by lia. cbn [mbind option_bind new_button attributes].
    rewrite lookup_insert_ne by done. rewrite lookup_insert_eq.
    by destruct (bool_decide (id = 0%nat)). }
  split; [|done]. split; [done|]. split; [done|]. split; [|by exists 0%nat].
  split; rewrite ?built_length0; auto.
  - nia.
  - intros id Hid. exists defaultCell. auto.
  - intros id b Hb. rewrite built_heap0 in Hb.
    + by injection Hb as <-.
    + apply lookup_lt_Some in Hb. lia.
Qed.

Lemma mounted_wf : wf props (mounted props).
Proof. apply built_wf, mounted_built. Qed.

End Construction.

(** ** State sync: [_updateButton] and [_doManualDomHandling] *)

Lemma insert_stored (m : gmap nat ButtonData) id p c cell :
  m !! id = Some (p, c) ->
  <[id := (p, cell)]> m = alter (fun d : ButtonData => (fst d, cell)) id m.
Proof.
  intros Hm. apply map_eq. intros j. destruct (decide (id = j)) as [->|Hne].
  - by rewrite lookup_insert_eq, lookup_alter_eq, Hm.
  - by rewrite lookup_insert_ne, lookup_alter_ne.
Qed.

Lemma updateButton_wp (w : World) id d cell x y :
  _additionalButtonData w !! id = Some d ->
  wp (_updateButton (Some (Button id)) cell x y) w (fun r w' tr =>
    r = Normal tt /\ w' = updated id cell w /\
    tr = [SetAttribute (Button id) "aria-label" (cellState cell)]).
Proof.
  intros Hd. destruct d as [[bx by_] c].
  unfold _updateButton, setAttribute, weakGet, weakSet.
  wp_run. rewrite Hd. wp_run.
  split; [done|]. split; [|done].
  unfold updated. world_norm. by rewrite (insert_stored _ _ _ c).
Qed.

Lemma updateButton_undefined (w : World) cell x y :
  wp (_updateButton None cell x y) w (fun r w' tr =>
    r = TypeError /\ w' = w /\ tr = []).
Proof. unfold _updateButton, setAttribute. by wp_run. Qed.

Lemma forEach_wp_inv {A} (body : A -> M unit) (f : World -> A -> World)
      (g : A -> Effect) (I : World -> Prop) (good : A -> Prop) (l : list A) :
  (forall a w, I w -> good a ->
     wp (body a) w (fun r w' tr => r = Normal tt /\ w' = f w a /\ tr = [g a] /\ I w')) ->
  forall w, I w -> Forall good l ->
    wp (forEach l body) w (fun r w' tr =>
      r = Normal tt /\ w' = fold_left f l w /\ tr = map g l /\ I w').
Proof.
  intros Hbody. induction l as [|a l IH]; intros w HI Hgood; cbn [forEach fold_left map].
  - by wp_run.
  - inversion Hgood as [|? ? Ha Hl]; subst.
    apply wp_bind. eapply wp_mono; [by apply Hbody|].
    intros r w' tr (-> & -> & -> & HI'). cbv beta iota.
    eapply wp_mono; [by apply IH|].
    by intros r w'' tr' (-> & -> & -> & HI'').
Qed.

Lemma forEach_wp_throw {A} (body : A -> M unit) (f : World -> A -> World)
      (g : A -> Effect) (I : World -> Prop) (good : A -> Prop)
      (pre : list A) (a : A) (post : list A) :
  (forall a w, I w -> good a ->
     wp (body a) w (fun r w' tr => r = Normal tt /\ w' = f w a /\ tr = [g a] /\ I w')) ->
  (forall w, I w -> wp (body a) w (fun r w' tr => r = TypeError /\ w' = w /\ tr = [])) ->
  forall w, I w -> Forall good pre ->
    wp (forEach (pre ++ a :: post) body) w (fun r w' tr =>
      r = TypeError /\ w' = fold_left f pre w /\ tr = map g pre /\ I w').
Proof.
  intros Hbody Ha. induction pre as [|b pre IH]; intros w HI Hgood;
    cbn [forEach fold_left map app].
  - apply wp_bind. eapply wp_mono; [by apply Ha|].
    by intros r w' tr (-> & -> & ->).
  - inversion Hgood as [|? ? Hb Hl]; subst.
    apply wp_bind. eapply wp_mono; [by apply Hbody|].
    intros r w' tr (-> & -> & -> & HI'). cbv beta iota.
    eapply wp_mono; [by apply IH|].
    by intros r w'' tr' (-> & -> & -> & HI'').
Qed.

Section Sync.

Variable props : Props.

Lemma resolvable_range (change : GridChange) :
  resolvable props change = true <->
  0 <= targetIndex props change < width props * height props.
Proof. unfold resolvable. rewrite andb_true_iff, Z.leb_le, Z.ltb_lt. done. Qed.

Lemma inBounds_resolvable (change : GridChange) :
  inBounds props change = true -> resolvable props change = true.
Proof.
  destruct change as [[x y] cell]. unfold inBounds.
  rewrite !andb_true_iff, !Z.leb_le, !Z.ltb_lt, resolvable_range.
  cbn [targetIndex]. nia.
Qed.

(** One iteration of the loop, for a delta whose button exists. *)
Lemma change_wp (w : World) (change : GridChange) :
  wf props w -> resolvable props change = true ->
  wp (let '(x, y, cell) := change in
      btn <- buttonAt (y * width props + x) ;; _updateButton btn cell x y)
     w (fun r w' tr =>
    r = Normal tt /\ w' = applyChange props w change /\
    tr = [labelWrite props change] /\ wf props w').
Proof.
  intros Hwf Hres. apply resolvable_range in Hres.
  destruct change as [[x y] cell]. cbn [targetIndex] in Hres.
  destruct (wf_lookup_button props w _ Hwf Hres) as [Hbtn Hlt].
  unfold buttonAt. wp_run.
  destruct (Z.leb_spec 0 (y * width props + x)); [|lia]. rewrite Hbtn.
  destruct Hwf as (HW & HH & Hok & Hrov).
  destruct (ok_data _ _ Hok _ Hlt) as [c Hc].
  eapply wp_mono; [by eapply updateButton_wp|].
  intros r w' tr (-> & -> & ->). cbv beta.
  split; [done|]. split; [done|]. split; [done|]. by apply wf_updated.
Qed.

(** One iteration of the loop, for a delta without a button. *)
Lemma change_throws (w : World) (change : GridChange) :
  wf props w -> resolvable props change = false ->
  wp (let '(x, y, cell) := change in
      btn <- buttonAt (y * width props + x) ;; _updateButton btn cell x y)
     w (fun r w' tr => r = TypeError /\ w' = w /\ tr = []).
Proof.
  intros Hwf Hres.
  assert (~ (0 <= targetIndex props change < width props * height props)) as Hout.
  { rewrite <- resolvable_range. by rewrite Hres. }
  destruct change as [[x y] cell]. cbn [targetIndex] in Hout.
  unfold buttonAt. wp_run. rewrite (wf_lookup_outside props w _ Hwf Hout).
  apply updateButton_undefined.
Qed.

Lemma doManualDomHandling_wp (w : World) (changes : list GridChange) :
  wf props w -> forallb (resolvable props) changes = true ->
  wp (_doManualDomHandling props {| gridChanges := Some changes |}) w
     (fun r w' tr =>
        r = Normal tt /\ w' = applyChanges props changes w /\
        tr = map (labelWrite props) changes ++ [AnimatorUpdateCells changes] /\
        wf props w').
Proof.
  intros Hwf Hres. unfold _doManualDomHandling. cbn [gridChanges].
  apply wp_bind. eapply wp_mono.
  - apply (forEach_wp_inv _ (applyChange props) (labelWrite props) (wf props)
             (fun c => resolvable props c = true)); [|done|].
    + intros [[x y] cell] w0 Hw0 Hc. by apply (change_wp w0 (x, y, cell)).
    + apply Forall_forall. intros c Hc. rewrite forallb_forall in Hres.
      apply Hres. by apply list_elem_of_In.
  - intros r w' tr (-> & -> & -> & Hwf'). cbv beta iota. by wp_run.
Qed.

Lemma doManualDomHandling_throws (w : World) (pre post : list GridChange)
      (change : GridChange) :
  wf props w -> forallb (resolvable props) pre = true ->
  resolvable props change = false ->
  wp (_doManualDomHandling props {| gridChanges := Some (pre ++ change :: post) |}) w
     (fun r w' tr =>
        r = TypeError /\ w' = applyChanges props pre w /\
        tr = map (labelWrite props) pre /\ wf props w').
Proof.
  intros Hwf Hres Hbad. unfold _doManualDomHandling. cbn [gridChanges].
  apply wp_bind. eapply wp_mono.
  - apply (forEach_wp_throw _ (applyChange props) (labelWrite props) (wf props)
             (fun c => resolvable props c = true)); [| |done|].
    + intros [[x y] cell] w0 Hw0 Hc. by apply (change_wp w0 (x, y, cell)).
    + intros w0 Hw0. by apply (change_throws w0 change).
    + apply Forall_forall. intros c Hc. rewrite forallb_forall in Hres.
      apply Hres. by apply list_elem_of_In.
  - by intros r w' tr (-> & -> & -> & Hwf').
Qed.

End Sync.

(** ** Focus: [setFocus], [moveFocusByKey] *)

Lemma weakHas_wp (w : World) (el : option Element) Q :
  Q (Normal (inGrid w el)) w [] -> wp (weakHas el) w Q.
Proof.
  intros HQ. unfold weakHas, weakGet. wp_run.
  by destruct el as [[id|id]|].
Qed.

Lemma world_eta (w w' : World) :
  heap w' = heap w -> _buttons w' = _buttons w ->
  _additionalButtonData w' = _additionalButtonData w ->
  _currentTabableBtn w' = _currentTabableBtn w ->
  activeElement w' = activeElement w ->
  rendererFocus w' = rendererFocus w ->
  w' = w.
Proof. destruct w, w'. cbn. by intros -> -> -> -> -> ->. Qed.

Section Focus.

Variable props : Props.

Lemma inGrid_data (w : World) (a : nat) :
  wf props w -> inGrid w (Some (Button a)) = true ->
  (a < length (heap w))%nat /\
  exists cell, _additionalButtonData w !! a = Some (coordinates props a, cell).
Proof.
  intros (HW & HH & Hok & _) Hin. cbn [inGrid] in Hin.
  apply bool_decide_eq_true_1 in Hin.
  pose proof (ok_keys _ _ Hok _ Hin) as Hlt. split; [done|].
  by apply (ok_data _ _ Hok).
Qed.

Lemma data_inGrid (w : World) (a : nat) :
  wf props w -> (a < length (heap w))%nat -> inGrid w (Some (Button a)) = true.
Proof.
  intros (HW & HH & Hok & _) Hlt. destruct (ok_data _ _ Hok _ Hlt) as [c Hc].
  cbn [inGrid]. apply bool_decide_eq_true_2. by rewrite Hc.
Qed.

(** Taking focus from an element outside the grid runs no blur listener. *)
Lemma blur_effects_outside (w : World) (e : Element) :
  wf props w -> inGrid w (activeElement w) = false -> blur_effects w e = [].
Proof.
  intros (HW & HH & Hok & _) Hout. unfold blur_effects.
  case_bool_decide; [done|].
  destruct (activeElement w) as [[a|a]|]; try done.
  destruct (heap w !! a) as [b|] eqn:Hb; [|done].
  apply lookup_lt_Some in Hb. destruct (ok_data _ _ Hok _ Hb) as [c Hc].
  cbn [inGrid] in Hout. apply bool_decide_eq_false_1 in Hout.
  destruct Hout. by rewrite Hc.
Qed.

Lemma wf_tab_stop (w : World) :
  wf props w ->
  exists t cell, roving w t /\
    _additionalButtonData w !! t = Some (coordinates props t, cell).
Proof.
  intros (HW & HH & Hok & t & Hrov). pose proof Hrov as (_ & Hlt & _).
  destruct (ok_data _ _ Hok _ Hlt) as [c Hc]. by exists t, c.
Qed.

(** [setFocus] on a grid button, from a well-formed world. *)
Lemma setFocus_grid (w : World) (t : nat) :
  wf props w -> (t < length (heap w))%nat ->
  wp (setFocus (Some (Button t))) w (fun r w' tr =>
    r = Normal tt /\ wf props w' /\ roving w' t /\
    w' = moved props w t /\
    clicks tr = [] /\ animatorCalls tr = [] /\
    last (rendererCalls tr) = Some (coordinates props t)).
Proof.
  intros Hwf Hlt. destruct (wf_tab_stop w Hwf) as (t0 & c0 & Hrov & Hd0).
  pose proof Hrov as (Hcur & _).
  pose proof Hwf as (_ & _ & Hok & _).
  destruct (ok_data _ _ Hok _ Hlt) as [c Hc].
  eapply wp_mono; [by eapply setFocus_wp|].
  intros r w' tr (-> & -> & blurred & -> & Hbl). cbn [fst snd].
  unfold moved. rewrite Hcur. cbn [default].
  destruct (wf_focused props w (Button t0) t (Some (Button t))
              (coordinates props t) Hwf Hcur Hlt) as [Hwf' Hrov'].
  split; [done|]. split; [done|]. split; [done|]. split; [done|].
  destruct Hbl as [-> | ->]; destruct (coordinates props t);
    repeat split; reflexivity.
Qed.

Lemma moveFocusByKey_wp (w : World) (h v : Z) :
  wf props w ->
  exists x y, position w (origin w) = Some (x, y) /\
  wp (moveFocusByKey props h v) w (fun r w' tr =>
    r = Normal tt /\ wf props w' /\ clicks tr = [] /\ animatorCalls tr = [] /\
    (inside props (x + h) (y + v) = true ->
       let t := Z.to_nat (x + h + (y + v) * width props) in
       w' = moved props w t /\ roving w' t /\ coordinates props t = (x + h, y + v) /\
       last (rendererCalls tr) = Some (x + h, y + v)) /\
    (inside props (x + h) (y + v) = false ->
       w' = (if inGrid w (activeElement w) then w
             else set_activeElement (_currentTabableBtn w) w) /\
       tr = [StopPropagation])).
Proof.
  intros Hwf. destruct (wf_tab_stop w Hwf) as (t0 & c0 & Hrov & Hd0).
  pose proof Hrov as (Hcur & Hlt0 & _).
  (* the part after the origin is known *)
  assert (forall w1 x y tr0,
    wf props w1 -> _buttons w1 = _buttons w -> heap w1 = heap w ->
    _additionalButtonData w1 = _additionalButtonData w ->
    _currentTabableBtn w1 = _currentTabableBtn w ->
    w1 = (if inGrid w (activeElement w) then w
          else set_activeElement (_currentTabableBtn w) w) ->
    0 <= x < width props -> 0 <= y < height props ->
    wp (let newX := x + h in let newY := y + v in
        if (newX <? 0) || (newX >=? width props)
           || ((newY <? 0) || (newY >=? height props))
        then ret tt
        else (nextBtn <- buttonAt (newX + newY * width props) ;; setFocus nextBtn))
       w1 (fun r w' tr =>
    r = Normal tt /\ wf props w' /\
    clicks (StopPropagation :: tr0 ++ tr) = clicks tr0 /\
    animatorCalls (StopPropagation :: tr0 ++ tr) = animatorCalls tr0 /\
    (inside props (x + h) (y + v) = true ->
       let t := Z.to_nat (x + h + (y + v) * width props) in
       w' = moved props w t /\ roving w' t /\ coordinates props t = (x + h, y + v) /\
       last (rendererCalls (StopPropagation :: tr0 ++ tr)) = Some (x + h, y + v)) /\
    (inside props (x + h) (y + v) = false -> w' = w1 /\ tr = []))) as Htail.
  { intros w1 x y tr0 Hwf1 Hb1 Hh1 Hd1 Hc1 _ Hx Hy. cbv zeta.
    unfold inside.
    destruct ((x + h <? 0) || (x + h >=? width props)
              || ((y + v <? 0) || (y + v >=? height props))) eqn:Hout;
      cbn [negb].
    - wp_run. rewrite app_nil_r.
      split; [done|]. split; [done|]. split; [reflexivity|].
      split; [reflexivity|]. split; [intros ?; discriminate | done].
    - apply orb_false_iff in Hout as [Hox Hoy].
      apply orb_false_iff in Hox as [Hx1 Hx2].
      apply orb_false_iff in Hoy as [Hy1 Hy2].
      assert (0 <= x + h + (y + v) * width props < width props * height props)
        as Hidx by nia.
      destruct (wf_lookup_button props w1 _ Hwf1 Hidx) as [Hbtn Hlt].
      unfold buttonAt. wp_run.
      destruct (Z.leb_spec 0 (x + h + (y + v) * width props)); [|lia].
      rewrite Hbtn.
      eapply wp_mono; [by apply setFocus_grid|].
      intros r w' tr (-> & Hwf' & Hrov' & -> & Hcl & Han & Hlast). cbv beta.
      assert (coordinates props (Z.to_nat (x + h + (y + v) * width props))
              = (x + h, y + v)) as Hco by (apply coordinates_index; lia).
      split; [done|]. split; [done|].
      split; [by unfold clicks in *; cbn [omap list_omap];
               rewrite omap_app, Hcl, app_nil_r|].
      split; [by unfold animatorCalls in *; cbn [omap list_omap];
               rewrite omap_app, Han, app_nil_r|].
      split; [|done]. intros _. cbv zeta.
      split; [by unfold moved; rewrite Hh1, Hb1, Hd1, Hc1|].
      split; [done|]. split; [done|].
      unfold rendererCalls in *. cbn [omap list_omap]. rewrite omap_app.
      rewrite <- Hco.
      destruct (omap _ tr) as [|p l] eqn:Hl using rev_ind; [done|].
      rewrite app_assoc, last_snoc. by rewrite last_snoc in Hlast. }
  unfold moveFocusByKey, weakGet.
  destruct (inGrid w (activeElement w)) eqn:Hin.
  - (* a grid button has focus *)
    destruct (activeElement w) as [[a|a]|] eqn:Ha; try done.
    destruct (inGrid_data w a Hwf Hin) as (Hlt & c & Hc).
    destruct (coordinates_inside props w a Hwf Hlt) as (Hx & Hy & _).
    exists (fst (coordinates props a)), (snd (coordinates props a)).
    split. { unfold origin. rewrite Ha, Hin. cbn [position]. rewrite Hc.
             by destruct (coordinates props a). }
    wp_run. rewrite Ha. wp_fields. rewrite Hc. wp_run.
    destruct (coordinates props a) as [x y] eqn:Hco. cbn [fst snd] in *.
    eapply wp_mono; [by apply (Htail w x y [])|].
    intros r w' tr (-> & Hwf' & Hcl & Han & Hi & Ho). cbv beta.
    cbn [app] in *.
    split; [done|]. split; [done|]. split; [done|]. split; [done|].
    split; [done|]. intros Hfalse. destruct (Ho Hfalse) as [-> ->]. done.
  - (* focus is outside the grid: fall back to the tab stop *)
    destruct (coordinates_inside props w t0 Hwf Hlt0) as (Hx & Hy & _).
    exists (fst (coordinates props t0)), (snd (coordinates props t0)).
    split. { unfold origin. rewrite Hin, Hcur. cbn [position]. rewrite Hd0.
             by destruct (coordinates props t0). }
    wp_run.
    assert ((match activeElement w with
             | Some (Button id) => _additionalButtonData w !! id
             | _ => None
             end) = None) as ->.
    { destruct (activeElement w) as [[a|a]|]; try done.
      cbn [inGrid] in Hin. apply bool_decide_eq_false_1 in Hin.
      destruct (_ !! a) eqn:Hq; [|done]. destruct Hin. rewrite ?Hq. eauto. }
    wp_run. rewrite Hcur.
    eapply wp_mono; [apply focus_wp|].
    intros r w1 tr1 (-> & -> & Hh1 & Hb1 & Hd1 & Hc1 & Ha1 & Hr1). cbv beta iota.
    rewrite (blur_effects_outside w _ Hwf Hin) in *.
    wp_run. rewrite Hd1, Hd0. wp_run.
    assert (wf props w1) as Hwf1 by (by apply (wf_frame props w)).
    assert (w1 = set_activeElement (Some (Button t0)) w) as Hw1.
    { apply world_eta; world_norm; auto. }
    destruct (coordinates props t0) as [x y] eqn:Hco. cbn [fst snd] in *.
    eapply wp_mono;
      [apply (Htail w1 x y []); rewrite ?Hin, ?Hcur;
       first [done | congruence | lia]|].
    intros r w' tr (-> & Hwf' & Hcl & Han & Hi & Ho). cbv beta.
    cbn [app] in *.
    split; [done|]. split; [done|]. split; [done|]. split; [done|].
    split; [done|]. intros Hfalse. destruct (Ho Hfalse) as [-> ->].
    by rewrite Hw1.
Qed.

End Focus.

(** ** Pointer and key handlers *)

Lemma blur_wp (w : World) (e : Element) :
  wp (blur (Some e)) w (fun r w' tr =>
    r = Normal tt /\
    heap w' = heap w /\ _buttons w' = _buttons w /\
    _additionalButtonData w' = _additionalButtonData w /\
    _currentTabableBtn w' = _currentTabableBtn w /\
    clicks tr = [] /\ animatorCalls tr = []).
Proof.
  unfold blur, fireBlur, removeFocusVisual, renderer_setFocus.
  wp_run. case_bool_decide as Ha; wp_run; [|done].
  destruct (activeElement w) as [[a|a]|]; wp_run; try done.
  destruct (heap w !! a) as [b|]; [destruct (blurListener b)|]; wp_run; done.
Qed.

Lemma moved_frame (props : Props) (w w1 : World) (t : nat) :
  heap w1 = heap w -> _buttons w1 = _buttons w ->
  _additionalButtonData w1 = _additionalButtonData w ->
  _currentTabableBtn w1 = _currentTabableBtn w ->
  moved props w1 t = moved props w t.
Proof. unfold moved. by intros -> -> -> ->. Qed.

Section Handlers.

Variable props : Props.
Variables isFeaturePhone cellFocusMode : bool.

Lemma moveFocusWithMouse_grid (w : World) (t : nat) :
  wf props w -> inGrid w (Some (Button t)) = true ->
  wp (moveFocusWithMouse (Button t)) w (fun r w' tr =>
    r = Normal tt /\ wf props w' /\ roving w' t /\ w' = moved props w t /\
    clicks tr = [] /\ animatorCalls tr = []).
Proof.
  intros Hwf Hin. destruct (inGrid_data props w t Hwf Hin) as (Hlt & c & Hc).
  unfold moveFocusWithMouse.
  apply wp_bind, weakHas_wp. rewrite Hin. wp_run.
  apply weakHas_wp. wp_fields.
  destruct (inGrid w (activeElement w)
            && negb (bool_decide (activeElement w = Some (Button t)))) eqn:Hb.
  - destruct (activeElement w) as [e|] eqn:Ha; [|done].
    apply wp_bind. eapply wp_mono; [apply blur_wp|].
    intros r w1 tr1 (-> & Hh & Hbt & Hd & Hcur & Hcl1 & Han1). cbv beta iota.
    assert (wf props w1) as Hwf1 by (by apply (wf_frame props w)).
    eapply wp_mono; [apply (setFocus_grid props w1 t Hwf1); by rewrite Hh|].
    intros r w' tr (-> & Hwf' & Hrov' & -> & Hcl & Han & _). cbv beta.
    split; [done|]. split; [done|]. split; [done|].
    split; [by apply moved_frame|].
    unfold clicks, animatorCalls in *. rewrite !omap_app.
    by rewrite Hcl1, Han1, Hcl, Han.
  - wp_run.
    eapply wp_mono; [by apply (setFocus_grid props w t Hwf)|].
    intros r w' tr (-> & Hwf' & Hrov' & -> & Hcl & Han & _). done.
Qed.

Lemma moveFocusWithMouse_off (w : World) (target : Element) :
  inGrid w (Some target) = false ->
  wp (moveFocusWithMouse target) w (fun r w' tr =>
    r = Normal tt /\ w' = set_rendererFocus (-1, -1) w /\
    tr = [RendererSetFocus (-1) (-1)]).
Proof.
  intros Hout. unfold moveFocusWithMouse.
  apply wp_bind, weakHas_wp. rewrite Hout. wp_fields.
  unfold removeFocusVisual, renderer_setFocus. by wp_run.
Qed.

Lemma weakGet_inGrid (w : World) (el : option Element) :
  inGrid w el = false ->
  match el with
  | Some (Button id) => _additionalButtonData w !! id
  | _ => None
  end = None.
Proof.
  destruct el as [[id|id]|]; try done. cbn [inGrid]. intros Hout.
  apply bool_decide_eq_false_1 in Hout.
  destruct (_ !! id) eqn:Hq; [|done]. destruct Hout. rewrite ?Hq. eauto.
Qed.

Lemma onMouseUp_off (w : World) (target : Element) (button : Z) :
  inGrid w (Some target) = false ->
  onMouseUp isFeaturePhone cellFocusMode target button w = mkOutcome (Normal tt) w [].
Proof.
  intros Hout. apply weakGet_inGrid in Hout.
  unfold onMouseUp, weakGet, bind, gets. cbn [result final trace].
  rewrite Hout. reflexivity.
Qed.

Lemma onMouseUp_grid (w : World) (t : nat) (button : Z) :
  wf props w -> inGrid w (Some (Button t)) = true ->
  wp (onMouseUp isFeaturePhone cellFocusMode (Button t) button) w (fun r w' tr =>
    r = Normal tt /\ wf props w' /\ animatorCalls tr = [] /\
    if (isFeaturePhone || cellFocusMode) && negb (inGrid w (activeElement w))
    then w' = moved props w t /\
         clicks tr = [(_additionalButtonData w !! t, negb (negb (button =? 2)))]
    else w' = w /\
         tr = [PreventDefault;
               OnCellClick (if isFeaturePhone || cellFocusMode
                            then match activeElement w with
                                 | Some (Button a) => _additionalButtonData w !! a
                                 | _ => None
                                 end
                            else _additionalButtonData w !! t)
                           (negb (negb (button =? 2)))]).
Proof.
  intros Hwf Hin. destruct (inGrid_data props w t Hwf Hin) as (Hlt & c & Hc).
  unfold onMouseUp, simulateClick, weakGet. wp_run. rewrite Hc. wp_run.
  destruct (isFeaturePhone || cellFocusMode); cbn [andb].
  - wp_run. apply weakHas_wp. wp_fields.
    destruct (inGrid w (activeElement w)) eqn:Hact; cbn [negb]; wp_run.
    + destruct (negb (button =? 2)); wp_run; done.
    + eapply wp_mono; [by apply (setFocus_grid props w t Hwf)|].
      intros r w' tr (-> & Hwf' & Hrov' & -> & Hcl & Han & _). cbv beta iota.
      wp_run. unfold moved at 1 2. cbn [_additionalButtonData].
      destruct (negb (button =? 2)); wp_run.
      all: split; [done|]; split; [done|].
      all: unfold clicks, animatorCalls in *; cbn [omap list_omap].
      all: rewrite !omap_app, ?Hcl, ?Han, ?Hc; repeat split; reflexivity.
  - wp_run. destruct (negb (button =? 2)); wp_run; rewrite Hc; done.
Qed.

Lemma onKeyDown_activate (w : World) (key : string) :
  (key = "Enter" \/ key = "8")%string ->
  onKeyDownOnTable props key w
  = match activeElement w with
    | None => mkOutcome (Normal tt) w []
    | Some el =>
        mkOutcome (Normal tt) w
          [PreventDefault;
           OnCellClick (match el with
                        | Button id => _additionalButtonData w !! id
                        | OtherElement _ => None
                        end) false]
    end.
Proof.
  intros Hkey. unfold onKeyDownOnTable.
  assert (String.eqb key "Enter" || String.eqb key "8" = true) as ->.
  { destruct Hkey as [-> | ->]; reflexivity. }
  unfold simulateClick, weakGet, bind, gets, emit, ret. cbn [result final trace].
  destruct (activeElement w) as [[a|a]|]; reflexivity.
Qed.

(** Every handler keeps the grid invariant, whether it returns or throws. *)
Lemma moveFocusByKey_wf (w : World) (h v : Z) :
  wf props w ->
  wf props (final (moveFocusByKey props h v w)) /\
  result (moveFocusByKey props h v w) = Normal tt.
Proof.
  intros Hwf. destruct (moveFocusByKey_wp props w h v Hwf) as (x & y & _ & Hwp).
  apply wp_elim in Hwp. cbv beta in Hwp. by destruct Hwp as (-> & ? & _).
Qed.

Lemma onKeyDownOnTable_wf (w : World) (key : string) :
  wf props w ->
  wf props (final (onKeyDownOnTable props key w)) /\
  result (onKeyDownOnTable props key w) = Normal tt.
Proof.
  intros Hwf. unfold onKeyDownOnTable.
  destruct (String.eqb key "Enter" || String.eqb key "8") eqn:Hk.
  - unfold simulateClick, weakGet, bind, gets, emit, ret. cbn [result final trace].
    by destruct (activeElement w).
  - repeat match goal with
           | |- context [if ?b then _ else _] => destruct b
           end; try (by apply moveFocusByKey_wf); done.
Qed.

Lemma doManualDomHandling_wf (w : World) (stateChange : StateChange) :
  wf props w -> wf props (final (_doManualDomHandling props stateChange w)).
Proof.
  intros Hwf. destruct stateChange as [[changes|]]; [|done].
  destruct (forallb (resolvable props) changes) eqn:Hres.
  - pose proof (doManualDomHandling_wp props w changes Hwf Hres) as Hwp.
    apply wp_elim in Hwp. by destruct Hwp as (_ & _ & _ & ?).
  - assert (exists pre change post,
      changes = pre ++ change :: post /\
      forallb (resolvable props) pre = true /\
      resolvable props change = false) as (pre & change & post & -> & Hpre & Hbad).
    { clear Hwf. induction changes as [|c cs IH]; [done|].
      cbn [forallb] in Hres. destruct (resolvable props c) eqn:Hc.
      - destruct (IH Hres) as (pre & change & post & -> & Hpre & Hbad).
        exists (c :: pre), change, post. cbn [forallb]. by rewrite Hc.
      - by exists [], c, cs. }
    pose proof (doManualDomHandling_throws props w pre post change Hwf Hpre Hbad)
      as Hwp.
    apply wp_elim in Hwp. by destruct Hwp as (_ & _ & _ & ?).
Qed.

Lemma dispatch_wf (w : World) (i : Input) :
  wf props w ->
  wf props (final (dispatch props isFeaturePhone cellFocusMode i w)).
Proof.
  intros Hwf. destruct i as [key|key|key|target button| |target| |sc|el];
    cbn [dispatch].
  - by apply onKeyDownOnTable_wf.
  - unfold onKeyUpOnTable. destruct (String.eqb key "Tab"); [|done].
    by apply moveFocusByKey_wf.
  - unfold _onKeyUp. destruct (_ && _); [|done]. by apply moveFocusByKey_wf.
  - destruct (inGrid w (Some target)) eqn:Hin.
    + destruct target as [t|t]; [|done].
      pose proof (onMouseUp_grid w t button Hwf Hin) as Hwp.
      apply wp_elim in Hwp. by destruct Hwp as (_ & ? & _).
    + by rewrite onMouseUp_off.
  - done.
  - destruct (isFeaturePhone || cellFocusMode); [|done].
    destruct (inGrid w (Some target)) eqn:Hin.
    + destruct target as [t|t]; [|done].
      pose proof (moveFocusWithMouse_grid w t Hwf Hin) as Hwp.
      apply wp_elim in Hwp. by destruct Hwp as (_ & ? & _).
    + pose proof (moveFocusWithMouse_off w target Hin) as Hwp.
      apply wp_elim in Hwp. destruct Hwp as (_ & -> & _).
      by apply (wf_frame props w).
  - done.
  - by apply doManualDomHandling_wf.
  - unfold fireBlur, removeFocusVisual, renderer_setFocus.
    apply (wp_elim _ _ (fun _ w' _ => wf props w')).
    wp_run. case_bool_decide; wp_run; [done|].
    destruct (activeElement w) as [[a|a]|]; wp_run;
      try (by apply (wf_frame props w)).
    destruct (heap w !! a) as [b|]; [destruct (blurListener b)|]; wp_run;
      by apply (wf_frame props w).
Qed.

Hypothesis width_pos : 0 < width props.
Hypothesis height_pos : 0 < height props.

Lemma run_wf (history : list Input) :
  wf props (run props isFeaturePhone cellFocusMode history).
Proof.
  unfold run. induction history as [|i history IH] using rev_ind.
  - by apply mounted_wf.
  - rewrite fold_left_app. cbn [fold_left]. by apply dispatch_wf.
Qed.

End Handlers.

(** ** Reading the state back *)

Lemma cellState_describe (cell : Cell) : cellState cell = describe cell.
Proof.
  destruct cell as [f m r tf tm]. unfold cellState, describe.
  cbn [revealed flagged hasMine touchingMines].
  destruct r, f, m; cbn [negb]; try reflexivity; by destruct tm.
Qed.

Lemma filter_none {A} (P : A -> Prop) `{forall x, Decision (P x)} (l : list A) :
  (forall x, x ∈ l -> ~ P x) -> filter P l = [].
Proof.
  induction l as [|x l IH]; intros Hl; [done|].
  rewrite filter_cons_False by (apply Hl; left).
  apply IH. intros y Hy. apply Hl. by right.
Qed.

Lemma filter_seq_single (P : nat -> Prop) `{forall n, Decision (P n)} (t n : nat) :
  (t < n)%nat -> (forall id, (id < n)%nat -> P id <-> id = t) ->
  filter P (seq 0 n) = [t].
Proof.
  induction n as [|n IH]; intros Ht HP; [lia|].
  rewrite seq_S, filter_app. cbn [Nat.add].
  destruct (decide (t = n)) as [->|Hne].
  - rewrite (filter_cons_True _ n) by (apply HP; lia). cbn [filter list_filter].
    rewrite (filter_none P (seq 0 n)); [done|]. intros id Hid.
    apply elem_of_seq in Hid. rewrite HP by lia. lia.
  - rewrite IH; [|lia|intros id Hid; apply HP; lia].
    rewrite (filter_cons_False _ n); [done|]. rewrite HP by lia. lia.
Qed.

Lemma roving_tabStops (w : World) (t : nat) : roving w t -> tabStops w = [t].
Proof.
  intros (_ & Hlt & Htab). unfold tabStops.
  apply filter_seq_single; [done|]. intros id Hid. rewrite (Htab id Hid).
  case_bool_decide; split; intros; try done; congruence.
Qed.

Lemma roving_others (w : World) (t id : nat) :
  roving w t -> (id < length (heap w))%nat -> id <> t ->
  getAttribute w id "tabindex" = Some "-1".
Proof.
  intros (_ & _ & Htab) Hid Hne. rewrite (Htab id Hid).
  by rewrite bool_decide_eq_false_2.
Qed.

Lemma description_updated (w : World) (id id' : nat) (cell : Cell) :
  (id < length (heap w))%nat ->
  description (updated id' cell w) id
  = if bool_decide (id' = id) then Some (describe cell) else description w id.
Proof.
  intros Hid. unfold description, getAttribute, updated. world_norm.
  rewrite <- cellState_describe. case_bool_decide as Heq.
  - subst.
    pose proof (attribute_written (heap w) id "aria-label" (cellState cell) Hid) as Hw.
    by rewrite lower_aria_label in Hw.
  - apply attribute_kept. by left.
Qed.

Lemma storedCell_updated (w : World) (id id' : nat) (cell : Cell) :
  is_Some (_additionalButtonData w !! id) ->
  storedCell (updated id' cell w) id
  = if bool_decide (id' = id) then Some cell else storedCell w id.
Proof.
  intros [d Hd]. unfold storedCell, updated. world_norm.
  case_bool_decide as Heq.
  - subst. by rewrite lookup_alter_eq, Hd.
  - by rewrite lookup_alter_ne.
Qed.

Lemma position_updated (w : World) (el : option Element) (id' : nat) (cell : Cell) :
  position (updated id' cell w) el = position w el.
Proof.
  destruct el as [[id|id]|]; try done. unfold position, updated. world_norm.
  destruct (decide (id' = id)) as [->|Hne].
  - rewrite lookup_alter_eq. by destruct (_ !! id).
  - by rewrite lookup_alter_ne.
Qed.

Section ReadBack.

Variable props : Props.

Lemma inside_spec (x y : Z) :
  inside props x y = true <-> 0 <= x < width props /\ 0 <= y < height props.
Proof.
  unfold inside. rewrite negb_true_iff, !orb_false_iff.
  rewrite !Z.ltb_ge, !Z.geb_leb, !Z.leb_gt. lia.
Qed.

Lemma applyChanges_wf (w : World) (changes : list GridChange) :
  wf props w -> wf props (applyChanges props changes w).
Proof.
  revert w. induction changes as [|c cs IH]; intros w Hwf; [done|].
  cbn [applyChanges fold_left]. apply IH. by apply wf_updated.
Qed.

Lemma applyChanges_length (w : World) (changes : list GridChange) :
  length (heap (applyChanges props changes w)) = length (heap w).
Proof.
  revert w. induction changes as [|c cs IH]; intros w; [done|].
  cbn [applyChanges fold_left]. unfold applyChanges in IH. rewrite IH.
  unfold applyChange, updated. world_norm. by rewrite length_alter.
Qed.

(** Last write wins: after a batch, a button shows the description of the
    last delta that targeted it, and keeps its old one if none did. *)
Lemma applyChanges_read (w : World) (changes : list GridChange) (id : nat) :
  wf props w -> (id < length (heap w))%nat ->
  description (applyChanges props changes w) id
  = match lastChange props changes id with
    | Some cell => Some (describe cell)
    | None => description w id
    end /\
  storedCell (applyChanges props changes w) id
  = match lastChange props changes id with
    | Some cell => Some cell
    | None => storedCell w id
    end.
Proof.
  revert w. induction changes as [|c cs IH]; intros w Hwf Hid; [done|].
  cbn [applyChanges fold_left lastChange].
  assert (wf props (applyChange props w c)) as Hwf' by (by apply wf_updated).
  assert (length (heap (applyChange props w c)) = length (heap w)) as Hlen.
  { unfold applyChange, updated. world_norm. by rewrite length_alter. }
  destruct (IH (applyChange props w c) Hwf') as [IHd IHs]; [by rewrite Hlen|].
  unfold applyChanges in *. rewrite IHd, IHs.
  destruct (lastChange props cs id) as [cell|]; [done|].
  unfold applyChange. rewrite description_updated by done.
  rewrite storedCell_updated.
  - by case_bool_decide.
  - destruct Hwf as (_ & _ & Hok & _).
    destruct (ok_data _ _ Hok _ Hid) as [c0 Hc0]. by rewrite Hc0.
Qed.

Lemma animatorCalls_labelWrites (changes : list GridChange) :
  animatorCalls (map (labelWrite props) changes) = [].
Proof. induction changes as [|c cs IH]; [done|]. exact IH. Qed.

Lemma clicks_labelWrites (changes : list GridChange) :
  clicks (map (labelWrite props) changes) = [].
Proof. induction changes as [|c cs IH]; [done|]. exact IH. Qed.

End ReadBack.

(** ** Handlers return normally *)

Lemma write_tabindex_absorb (v v' : string) (b : HTMLButtonElement) :
  write_attribute "tabIndex" v (write_attribute "tabIndex" v' b)
  = write_attribute "tabIndex" v b.
Proof. unfold write_attribute. cbn [attributes blurListener]. by rewrite insert_insert_eq. Qed.

Lemma focused_heap_again (c : Element) (t : nat) (h : list HTMLButtonElement) :
  focused_heap (Button t) t (focused_heap c t h) = focused_heap c t h.
Proof.
  unfold focused_heap. rewrite !list_alter_alter_eq.
  apply list_alter_ext; [|done]. intros b _. cbn [compose].
  by rewrite !write_tabindex_absorb.
Qed.

Section Normal.

Variable props : Props.
Variables isFeaturePhone cellFocusMode : bool.

Lemma dispatch_user_input (w : World) (i : Input) :
  wf props w -> isUserInput i = true ->
  result (dispatch props isFeaturePhone cellFocusMode i w) = Normal tt.
Proof.
  intros Hwf Hi. destruct i as [key|key|key|target button| |target| |sc|el];
    try done; cbn [dispatch].
  - by apply onKeyDownOnTable_wf.
  - unfold onKeyUpOnTable. destruct (String.eqb key "Tab"); [|done].
    by apply moveFocusByKey_wf.
  - unfold _onKeyUp. destruct (_ && _); [|done]. by apply moveFocusByKey_wf.
  - destruct (inGrid w (Some target)) eqn:Hin.
    + destruct target as [t|t]; [|done].
      pose proof (onMouseUp_grid props isFeaturePhone cellFocusMode w t button
                    Hwf Hin) as Hwp.
      apply wp_elim in Hwp. by destruct Hwp as (? & _).
    + by rewrite onMouseUp_off.
  - destruct (isFeaturePhone || cellFocusMode); [|done].
    destruct (inGrid w (Some target)) eqn:Hin.
    + destruct target as [t|t]; [|done].
      pose proof (moveFocusWithMouse_grid props w t Hwf Hin) as Hwp.
      apply wp_elim in Hwp. by destruct Hwp as (? & _).
    + pose proof (moveFocusWithMouse_off w target Hin) as Hwp.
      apply wp_elim in Hwp. by destruct Hwp as (? & _).
Qed.

End Normal.

(** * The claims *)

Section Claims.

Variable props : Props.
Variables isFeaturePhone cellFocusMode : bool.
Hypothesis width_pos : 0 < width props.
Hypothesis height_pos : 0 < height props.

(** C1. Whenever the sync bridge applies a cell delta, and for the default
    cell at construction, the target button's accessibility description is
    recomputed by the precedence table: not revealed gives "flag" when
    flagged, else "hidden"; revealed with a mine gives "black hole"; revealed
    without a mine and with no touching mine gives "blank"; otherwise the
    decimal string of touchingMines.  Reading a button back after a batch
    gives the description (and the cell) of the last delta that targeted it. *)
Theorem description_recomputed (history : list Input)
        (changes : list GridChange) (id : nat) :
  forallb (inBounds props) changes = true ->
  (id < Z.to_nat (width props * height props))%nat ->
  let w := run props isFeaturePhone cellFocusMode history in
  let o := _doManualDomHandling props {| gridChanges := Some changes |} w in
  (forall cell, cellState cell = describe cell) /\
  description (mounted props) id = Some (describe defaultCell) /\
  (forall btn cell x y,
     inGrid w (Some btn) = true ->
     exists n, btn = Button n /\
       result (_updateButton (Some btn) cell x y w) = Normal tt /\
       description (final (_updateButton (Some btn) cell x y w)) n
       = Some (describe cell)) /\
  result o = Normal tt /\
  description (final o) id
  = match lastChange props changes id with
    | Some cell => Some (describe cell)
    | None => description w id
    end /\
  storedCell (final o) id
  = match lastChange props changes id with
    | Some cell => Some cell
    | None => storedCell w id
    end.
Proof.
  intros Hin Hid w o.
  assert (wf props w) as Hwf by (by apply run_wf).
  assert (id < length (heap w))%nat as Hlt.
  { destruct Hwf as (_ & _ & Hok & _). pose proof (ok_size _ _ Hok). lia. }
  split; [apply cellState_describe|]. split.
  { destruct (mounted_built props width_pos height_pos) as [_ Hb].
    unfold description, getAttribute. rewrite (built_heap _ _ _ Hb) by done.
    cbn [mbind option_bind new_button attributes]. by rewrite lookup_insert_eq. }
  split.
  { intros btn cell x y Hbtn. destruct btn as [n|n]; [|done]. exists n.
    destruct (inGrid_data props w n Hwf Hbtn) as (Hn & c & Hc).
    pose proof (updateButton_wp w n _ cell x y Hc) as Hwp.
    apply wp_elim in Hwp. destruct Hwp as (-> & -> & _).
    split; [done|]. split; [done|].
    rewrite description_updated by done. by rewrite bool_decide_eq_true_2. }
  assert (forallb (resolvable props) changes = true) as Hres.
  { apply forallb_forall. intros c Hc. apply inBounds_resolvable.
    rewrite forallb_forall in Hin. by apply Hin. }
  pose proof (doManualDomHandling_wp props w changes Hwf Hres) as Hwp.
  apply wp_elim in Hwp. fold o in Hwp. destruct Hwp as (-> & -> & _ & _).
  split; [done|]. by apply applyChanges_read.
Qed.

(** C2 (amended). A notification without the gridChanges field is a no-op:
    no attribute is written and the animator is not called.  A notification
    with a gridChanges array whose deltas are all in bounds (the empty array
    included) applies every delta, in order, to the button at index
    y*width + x, overwriting its label and its stored cell; all these writes
    come before the animator call, and the animator is called exactly once,
    last, with the batch as it was received. *)
Theorem batch_applied_then_forwarded (history : list Input)
        (changes : list GridChange) :
  forallb (inBounds props) changes = true ->
  let w := run props isFeaturePhone cellFocusMode history in
  let o := _doManualDomHandling props {| gridChanges := Some changes |} w in
  _doManualDomHandling props {| gridChanges := None |} w = mkOutcome (Normal tt) w [] /\
  result o = Normal tt /\
  final o = applyChanges props changes w /\
  trace o = map (labelWrite props) changes ++ [AnimatorUpdateCells changes] /\
  animatorCalls (trace o) = [changes] /\
  (forall x y cell w0, wf props w0 -> inBounds props (x, y, cell) = true ->
     let n := Z.to_nat (y * width props + x) in
     position w0 (Some (Button n)) = Some (x, y) /\
     position (applyChange props w0 (x, y, cell)) (Some (Button n)) = Some (x, y) /\
     description (applyChange props w0 (x, y, cell)) n = Some (describe cell) /\
     storedCell (applyChange props w0 (x, y, cell)) n = Some cell).
Proof.
  intros Hin w o.
  assert (wf props w) as Hwf by (by apply run_wf).
  assert (forallb (resolvable props) changes = true) as Hres.
  { apply forallb_forall. intros c Hc. apply inBounds_resolvable.
    rewrite forallb_forall in Hin. by apply Hin. }
  pose proof (doManualDomHandling_wp props w changes Hwf Hres) as Hwp.
  apply wp_elim in Hwp. fold o in Hwp. destruct Hwp as (Hr & Hf & Ht & _).
  split; [done|]. split; [done|]. split; [done|]. split; [done|].
  split.
  { rewrite Ht. unfold animatorCalls. rewrite omap_app.
    fold (animatorCalls (map (labelWrite props) changes)).
    by rewrite animatorCalls_labelWrites. }
  intros x y cell w0 Hwf0 Hxy n.
  pose proof (inBounds_resolvable props _ Hxy) as Hr0.
  apply resolvable_range in Hr0. cbn [targetIndex] in Hr0.
  destruct (wf_lookup_button props w0 _ Hwf0 Hr0) as [_ Hlt].
  pose proof Hwf0 as (_ & _ & Hok & _).
  destruct (ok_data _ _ Hok _ Hlt) as [c Hc].
  unfold inBounds in Hxy. rewrite !andb_true_iff, !Z.leb_le, !Z.ltb_lt in Hxy.
  assert (coordinates props n = (x, y)) as Hco.
  { unfold n. rewrite Z.add_comm. apply coordinates_index; lia. }
  assert (position w0 (Some (Button n)) = Some (x, y)) as Hpos.
  { cbn [position]. fold n in Hc. by rewrite Hc, Hco. }
  split; [done|]. unfold applyChange. cbn [targetIndex snd]. fold n.
  split; [by rewrite position_updated|].
  rewrite description_updated by done. rewrite storedCell_updated.
  - by rewrite bool_decide_eq_true_2.
  - fold n in Hc. by rewrite Hc.
Qed.

(** C10. Applying a batch presupposes that every delta is in bounds: the
    handler indexes this._buttons at y*width + x without a bounds check and
    dereferences the result.  For an out-of-bounds delta, either no button is
    at that index and the handler throws a TypeError (the deltas before it
    stay applied, those after it are not, the animator is never called), or a
    button of another coordinate is at that index and it is that button that
    is overwritten.  In neither case is the delta skipped. *)
Theorem out_of_bounds_delta (history : list Input)
        (pre post : list GridChange) (x y : Z) (cell : Cell) :
  forallb (inBounds props) pre = true ->
  inBounds props (x, y, cell) = false ->
  let w := run props isFeaturePhone cellFocusMode history in
  let o := _doManualDomHandling props
             {| gridChanges := Some (pre ++ (x, y, cell) :: post) |} w in
  let n := Z.to_nat (y * width props + x) in
  (resolvable props (x, y, cell) = false ->
     result o = TypeError /\
     final o = applyChanges props pre w /\
     trace o = map (labelWrite props) pre /\
     animatorCalls (trace o) = []) /\
  (resolvable props (x, y, cell) = true ->
     position w (Some (Button n)) <> Some (x, y) /\
     is_Some (position w (Some (Button n))) /\
     description (applyChange props (applyChanges props pre w) (x, y, cell)) n
     = Some (describe cell) /\
     storedCell (applyChange props (applyChanges props pre w) (x, y, cell)) n
     = Some cell /\
     (forallb (resolvable props) post = true ->
        result o = Normal tt /\
        final o = applyChanges props post
                    (applyChange props (applyChanges props pre w) (x, y, cell)) /\
        animatorCalls (trace o) = [pre ++ (x, y, cell) :: post])).
Proof.
  intros Hpre Hout w o n.
  assert (wf props w) as Hwf by (by apply run_wf).
  assert (forallb (resolvable props) pre = true) as Hres.
  { apply forallb_forall. intros c Hc. apply inBounds_resolvable.
    rewrite forallb_forall in Hpre. by apply Hpre. }
  split.
  - intros Hbad.
    pose proof (doManualDomHandling_throws props w pre post _ Hwf Hres Hbad) as Hwp.
    apply wp_elim in Hwp. fold o in Hwp. destruct Hwp as (-> & -> & -> & _).
    split; [done|]. split; [done|]. split; [done|].
    apply animatorCalls_labelWrites.
  - intros Hgood. pose proof Hgood as Hr0.
    apply resolvable_range in Hr0. cbn [targetIndex] in Hr0.
    destruct (wf_lookup_button props w _ Hwf Hr0) as [_ Hlt]. fold n in Hlt.
    pose proof Hwf as (_ & _ & Hok & _).
    destruct (ok_data _ _ Hok _ Hlt) as [c Hc].
    destruct (coordinates_inside props w n Hwf Hlt) as (Hx & Hy & _).
    assert (position w (Some (Button n)) = Some (coordinates props n)) as Hpos.
    { cbn [position]. by rewrite Hc. }
    split.
    { rewrite Hpos. intros Hsome.
      assert (coordinates props n = (x, y)) as Heq by congruence.
      rewrite Heq in Hx, Hy. cbn [fst snd] in *.
      unfold inBounds in Hout.
      rewrite !andb_false_iff, !Z.leb_gt, !Z.ltb_ge in Hout. lia. }
    split; [by rewrite Hpos|].
    assert (wf props (applyChanges props pre w)) as Hwf1 by (by apply applyChanges_wf).
    assert (n < length (heap (applyChanges props pre w)))%nat as Hlt1.
    { by rewrite applyChanges_length. }
    pose proof Hwf1 as (_ & _ & Hok1 & _).
    destruct (ok_data _ _ Hok1 _ Hlt1) as [c1 Hc1].
    unfold applyChange at 1 2. cbn [targetIndex snd]. fold n.
    rewrite description_updated by done.
    rewrite storedCell_updated by (by rewrite Hc1).
    rewrite bool_decide_eq_true_2 by done.
    split; [done|]. split; [done|]. intros Hpost.
    assert (forallb (resolvable props) (pre ++ (x, y, cell) :: post) = true) as Hall.
    { rewrite forallb_app. cbn [forallb]. by rewrite Hres, Hgood, Hpost. }
    pose proof (doManualDomHandling_wp props w _ Hwf Hall) as Hwp.
    apply wp_elim in Hwp. fold o in Hwp. destruct Hwp as (-> & -> & -> & _).
    split; [done|]. split.
    { unfold applyChanges. by rewrite fold_left_app. }
    unfold animatorCalls. rewrite omap_app.
    fold (animatorCalls (map (labelWrite props) (pre ++ (x, y, cell) :: post))).
    by rewrite animatorCalls_labelWrites.
Qed.

(** C3. From the current focus position (x, y) -- that of the grid button
    holding platform focus, or of the tab stop when focus is outside the
    grid -- a move by (dx, dy) with 0 <= x+dx < width and 0 <= y+dy < height
    makes the button at (x+dx, y+dy) the focus target: it becomes the tab
    stop, receives platform focus and the focus indicator.  Otherwise the
    move is a no-op: the focus target, the tab stops and the focus indicator
    are unchanged and the renderer is not called; when a grid button held
    focus the whole state is unchanged.  This holds in every reachable state
    and for every offset. *)
Theorem move_focus_by_offset (history : list Input) (dx dy : Z) :
  let w := run props isFeaturePhone cellFocusMode history in
  let o := moveFocusByKey props dx dy w in
  exists x y,
    position w (origin w) = Some (x, y) /\
    result o = Normal tt /\
    (0 <= x + dx < width props /\ 0 <= y + dy < height props ->
       exists t,
         position (final o) (Some (Button t)) = Some (x + dx, y + dy) /\
         _currentTabableBtn (final o) = Some (Button t) /\
         tabStops (final o) = [t] /\
         activeElement (final o) = Some (Button t) /\
         rendererFocus (final o) = (x + dx, y + dy)) /\
    (~ (0 <= x + dx < width props /\ 0 <= y + dy < height props) ->
       trace o = [StopPropagation] /\
       rendererCalls (trace o) = [] /\
       _currentTabableBtn (final o) = _currentTabableBtn w /\
       tabStops (final o) = tabStops w /\
       rendererFocus (final o) = rendererFocus w /\
       (inGrid w (activeElement w) = true -> final o = w) /\
       (inGrid w (activeElement w) = false ->
          final o = set_activeElement (_currentTabableBtn w) w)).
Proof.
  intros w o.
  assert (wf props w) as Hwf by (by apply run_wf).
  destruct (moveFocusByKey_wp props w dx dy Hwf) as (x & y & Hpos & Hwp).
  apply wp_elim in Hwp. fold o in Hwp. cbv beta zeta in Hwp.
  destruct Hwp as (Hr & Hwf' & _ & _ & Hin & Hout).
  exists x, y. split; [done|]. split; [done|]. split.
  - intros Hb. apply inside_spec in Hb. destruct (Hin Hb) as (Hw' & Hrov & Hco & _).
    exists (Z.to_nat (x + dx + (y + dy) * width props)).
    pose proof Hrov as (Hcur & Hlt & _).
    pose proof Hwf' as (_ & _ & Hok & _).
    destruct (ok_data _ _ Hok _ Hlt) as [c Hc].
    split; [by cbn [position]; rewrite Hc, Hco|]. split; [done|].
    split; [by apply roving_tabStops|].
    rewrite Hw'. unfold moved. cbn [activeElement rendererFocus]. by rewrite Hco.
  - intros Hb. rewrite <- inside_spec in Hb. apply not_true_is_false in Hb.
    destruct (Hout Hb) as [Hw' Htr]. rewrite Htr, Hw'.
    split; [done|]. split; [done|].
    destruct (inGrid w (activeElement w)); done.
Qed.

(** C4. In every reachable state exactly one button has tabindex 0 and every
    other button has tabindex -1; the button with tabindex 0 is the current
    tab stop.  At construction it is the button at position (0, 0), and
    setFocus on any grid button leaves exactly that button as the only one
    with tabindex 0. *)
Theorem single_tab_stop (history : list Input) :
  let w := run props isFeaturePhone cellFocusMode history in
  exists t,
    tabStops w = [t] /\
    _currentTabableBtn w = Some (Button t) /\
    Z.of_nat (length (heap w)) = width props * height props /\
    (forall id, (id < length (heap w))%nat -> id <> t ->
       getAttribute w id "tabindex" = Some "-1") /\
    (history = [] -> t = 0%nat /\ position w (Some (Button 0)) = Some (0, 0)) /\
    (forall n, (n < length (heap w))%nat ->
       let w' := final (setFocus (Some (Button n)) w) in
       tabStops w' = [n] /\ _currentTabableBtn w' = Some (Button n) /\
       forall id, (id < length (heap w'))%nat -> id <> n ->
         getAttribute w' id "tabindex" = Some "-1").
Proof.
  intros w.
  assert (wf props w) as Hwf by (by apply run_wf).
  pose proof Hwf as (_ & _ & Hok & t & Hrov).
  exists t. split; [by apply roving_tabStops|].
  split; [by destruct Hrov|]. split; [by apply (ok_size _ _ Hok)|].
  split; [intros id Hid Hne; by apply (roving_others w t)|].
  split.
  - intros ->. unfold w, run in *. cbn [fold_left] in *.
    destruct (built_wf props width_pos height_pos (mounted props)) as [_ Hrov0];
      [by apply mounted_built|].
    destruct Hrov as (Hc & _). destruct Hrov0 as (Hc0 & Hlt0 & _).
    rewrite Hc in Hc0. injection Hc0 as ->. split; [done|].
    destruct (ok_data _ _ Hok _ Hlt0) as [c Hcell]. cbn [position].
    rewrite Hcell. unfold coordinates. cbn [fmap option_fmap option_map fst].
    by rewrite Z.mod_0_l, Z.div_0_l by lia.
  - intros n Hn w'.
    pose proof (setFocus_grid props w n Hwf Hn) as Hwp.
    apply wp_elim in Hwp. fold w' in Hwp. destruct Hwp as (_ & _ & Hrov' & _).
    split; [by apply roving_tabStops|]. split; [by destruct Hrov'|].
    intros id Hid Hne. by apply (roving_others w' n).
Qed.

(** C5 (amended). On a constrained-input device a pointer move over a grid
    button moves focus to it in full: the button becomes the tab stop and the
    only button with tabindex 0, it receives platform focus, and the focus
    indicator goes to its coordinate.  A pointer move over anything else
    clears the indicator and changes nothing else.  On other devices pointer
    moves are not listened to. *)
Theorem hover_moves_focus (history : list Input) (target : Element) :
  let w := run props isFeaturePhone cellFocusMode history in
  let o := dispatch props isFeaturePhone cellFocusMode (MouseMoveOnTable target) w in
  if isFeaturePhone || cellFocusMode then
    result o = Normal tt /\
    (inGrid w (Some target) = true ->
       exists t, target = Button t /\
         _currentTabableBtn (final o) = Some target /\
         tabStops (final o) = [t] /\
         activeElement (final o) = Some target /\
         Some (rendererFocus (final o)) = position w (Some target)) /\
    (inGrid w (Some target) = false ->
       final o = set_rendererFocus (-1, -1) w /\
       trace o = [RendererSetFocus (-1) (-1)])
  else o = mkOutcome (Normal tt) w [].
Proof.
  intros w o. unfold o. cbn [dispatch].
  destruct (isFeaturePhone || cellFocusMode); [|done].
  assert (wf props w) as Hwf by (by apply run_wf).
  destruct (inGrid w (Some target)) eqn:Hin.
  - destruct target as [t|t]; [|done].
    pose proof (moveFocusWithMouse_grid props w t Hwf Hin) as Hwp.
    apply wp_elim in Hwp. destruct Hwp as (-> & _ & Hrov & Hw' & _).
    split; [done|]. split; [|done]. intros _. exists t.
    destruct (inGrid_data props w t Hwf Hin) as (_ & c & Hc).
    split; [done|]. split; [by destruct Hrov|].
    split; [by apply roving_tabStops|].
    rewrite Hw'. unfold moved. cbn [activeElement rendererFocus position].
    by rewrite Hc.
  - pose proof (moveFocusWithMouse_off w target Hin) as Hwp.
    apply wp_elim in Hwp. destruct Hwp as (-> & -> & ->). done.
Qed.

(** C6. A pointer-up over a grid button calls the activation callback exactly
    once, with isAlternate true exactly when event.button is 2.  On a
    constrained-input device, if no grid button holds input focus the
    pointer-up first moves focus to the button under the pointer and
    activates it; if a grid button holds input focus, focus does not move and
    that focused button is the one activated.  On other devices the button
    under the pointer is activated and focus does not move. *)
Theorem pointer_up_activation (history : list Input) (t : nat) (button : Z) :
  (t < Z.to_nat (width props * height props))%nat ->
  let w := run props isFeaturePhone cellFocusMode history in
  let o := dispatch props isFeaturePhone cellFocusMode
             (MouseUpOnTable (Button t) button) w in
  let constrained := isFeaturePhone || cellFocusMode in
  let activated := if constrained && inGrid w (activeElement w)
                   then activeElement w else Some (Button t) in
  result o = Normal tt /\
  is_Some (buttonData w activated) /\
  clicks (trace o) = [(buttonData w activated, button =? 2)] /\
  (constrained && negb (inGrid w (activeElement w)) = true ->
     _currentTabableBtn (final o) = Some (Button t) /\
     tabStops (final o) = [t] /\
     activeElement (final o) = Some (Button t) /\
     Some (rendererFocus (final o)) = position w (Some (Button t))) /\
  (constrained && negb (inGrid w (activeElement w)) = false -> final o = w).
Proof.
  intros Ht w o constrained activated.
  assert (wf props w) as Hwf by (by apply run_wf).
  assert (t < length (heap w))%nat as Hlt.
  { destruct Hwf as (_ & _ & Hok & _). pose proof (ok_size _ _ Hok). lia. }
  pose proof (data_inGrid props w t Hwf Hlt) as Hin.
  destruct (inGrid_data props w t Hwf Hin) as (_ & c & Hc).
  pose proof (onMouseUp_grid props isFeaturePhone cellFocusMode w t button Hwf Hin)
    as Hwp.
  apply wp_elim in Hwp. cbv beta in Hwp.
  destruct Hwp as (Hr & Hwf' & _ & Hcase).
  rewrite negb_involutive in Hcase. fold constrained in Hcase.
  unfold o. cbn [dispatch].
  split; [done|]. unfold activated.
  destruct constrained; cbn [andb] in *.
  - destruct (inGrid w (activeElement w)) eqn:Hact; cbn [negb] in *.
    + destruct Hcase as [-> ->].
      destruct (activeElement w) as [[a|a]|] eqn:Ha; try done.
      destruct (inGrid_data props w a Hwf Hact) as (_ & ca & Hca).
      cbn [buttonData]. rewrite Hca. done.
    + destruct Hcase as [Hw' Hcl]. cbn [buttonData]. rewrite Hc in *.
      split; [done|]. split; [done|]. split; [|done]. intros _.
      pose proof (setFocus_grid props w t Hwf Hlt) as Hsf.
      apply wp_elim in Hsf. destruct Hsf as (_ & _ & Hrov & Hm & _).
      rewrite <- Hm in Hw'. rewrite Hw'.
      split; [by destruct Hrov|]. split; [by apply roving_tabStops|].
      rewrite Hm. unfold moved. cbn [activeElement rendererFocus position].
      by rewrite Hc.
  - destruct Hcase as [-> ->]. cbn [buttonData]. rewrite Hc. done.
Qed.

(** C7 (amended). The digit keys are handled by the key-down handler of the
    table on every device, whatever the feature flags, in every reachable
    state.  9, 7, 5 and 0 act exactly like ArrowRight, ArrowLeft, ArrowUp and
    ArrowDown and move the focus position (x, y) by (+1, 0), (-1, 0),
    (0, -1) and (0, +1): when the target is on the board its button becomes
    the tab stop, the only button with tabindex 0, and receives platform
    focus and the focus indicator; otherwise only the propagation of the
    event is stopped and tab stop, tab stops and indicator stay.  8 acts
    exactly like Enter: with a grid button focused the default is prevented
    and the activation callback is called once with that button's data and
    isAlternate false, the state unchanged.  The flags only gate the window
    key-up handler, which on a constrained device re-asserts focus (a move
    by (0, 0)) for 9, 7, 5 and 0 and does nothing on other devices. *)
Theorem digit_keys_on_every_device (history : list Input) :
  let w := run props isFeaturePhone cellFocusMode history in
  let handle i := dispatch props isFeaturePhone cellFocusMode i w in
  let movesBy (o : Outcome unit) (dx dy : Z) :=
    exists x y,
      position w (origin w) = Some (x, y) /\
      result o = Normal tt /\
      clicks (trace o) = [] /\
      (0 <= x + dx < width props /\ 0 <= y + dy < height props ->
         exists t,
           position (final o) (Some (Button t)) = Some (x + dx, y + dy) /\
           _currentTabableBtn (final o) = Some (Button t) /\
           tabStops (final o) = [t] /\
           activeElement (final o) = Some (Button t) /\
           rendererFocus (final o) = (x + dx, y + dy)) /\
      (~ (0 <= x + dx < width props /\ 0 <= y + dy < height props) ->
         trace o = [StopPropagation] /\
         _currentTabableBtn (final o) = _currentTabableBtn w /\
         tabStops (final o) = tabStops w /\
         rendererFocus (final o) = rendererFocus w) in
  (forall digit arrow dx dy,
     In (digit, arrow, dx, dy)
        [("9"%string, "ArrowRight"%string, 1, 0);
         ("7"%string, "ArrowLeft"%string, -1, 0);
         ("5"%string, "ArrowUp"%string, 0, -1);
         ("0"%string, "ArrowDown"%string, 0, 1)] ->
     handle (KeyDownOnTable digit) = handle (KeyDownOnTable arrow) /\
     movesBy (handle (KeyDownOnTable digit)) dx dy) /\
  (handle (KeyDownOnTable "8") = handle (KeyDownOnTable "Enter") /\
   forall n, activeElement w = Some (Button n) ->
             inGrid w (Some (Button n)) = true ->
     exists cell,
       buttonData w (Some (Button n)) = Some (coordinates props n, cell) /\
       handle (KeyDownOnTable "8")
       = mkOutcome (Normal tt) w
           [PreventDefault;
            OnCellClick (Some (coordinates props n, cell)) false]) /\
  (forall key, In key ["9"; "7"; "5"; "0"]%string ->
     if isFeaturePhone || cellFocusMode
     then movesBy (handle (KeyUpOnWindow key)) 0 0
     else handle (KeyUpOnWindow key) = mkOutcome (Normal tt) w []) /\
  (isFeaturePhone || cellFocusMode = false ->
   forall key, handle (KeyUpOnWindow key) = mkOutcome (Normal tt) w []).
Proof.
  intros w handle movesBy.
  assert (wf props w) as Hwf by (by apply run_wf).
  assert (forall dx dy, movesBy (moveFocusByKey props dx dy w) dx dy) as Hmove.
  { intros dx dy. unfold movesBy.
    destruct (moveFocusByKey_wp props w dx dy Hwf) as (x & y & Hpos & Hwp).
    apply wp_elim in Hwp. cbv beta zeta in Hwp.
    destruct Hwp as (Hr & Hwf' & Hcl & _ & Hin & Hout).
    exists x, y. split; [done|]. split; [done|]. split; [done|]. split.
    - intros Hb. apply inside_spec in Hb.
      destruct (Hin Hb) as (Hw' & Hrov & Hco & _).
      exists (Z.to_nat (x + dx + (y + dy) * width props)).
      pose proof Hrov as (Hcur & Hlt & _).
      pose proof Hwf' as (_ & _ & Hok & _).
      destruct (ok_data _ _ Hok _ Hlt) as [c Hc].
      split; [by cbn [position]; rewrite Hc, Hco|]. split; [done|].
      split; [by apply roving_tabStops|].
      rewrite Hw'. unfold moved. cbn [activeElement rendererFocus]. by rewrite Hco.
    - intros Hb. rewrite <- inside_spec in Hb. apply not_true_is_false in Hb.
      destruct (Hout Hb) as [Hw' Htr]. rewrite Htr, Hw'.
      split; [done|]. destruct (inGrid w (activeElement w)); done. }
  split.
  { intros digit arrow dx dy Hkey. cbn [In] in Hkey.
    destruct Hkey as [Hkey | [Hkey | [Hkey | [Hkey | []]]]];
      injection Hkey as <- <- <- <-; (split; [reflexivity|]).
    - exact (Hmove 1 0).
    - exact (Hmove (-1) 0).
    - exact (Hmove 0 (-1)).
    - exact (Hmove 0 1). }
  split.
  { split; [reflexivity|]. intros n Hact Hin.
    destruct (inGrid_data props w n Hwf Hin) as (_ & cell & Hc).
    exists cell. split; [exact Hc|].
    unfold handle. cbn [dispatch].
    rewrite (onKeyDown_activate props w "8") by (by right).
    rewrite Hact, Hc. reflexivity. }
  split.
  { intros key Hkey. unfold handle. cbn [dispatch]. unfold _onKeyUp.
    destruct (isFeaturePhone || cellFocusMode); cbn [andb].
    - cbn [In] in Hkey. destruct Hkey as [<- | [<- | [<- | [<- | []]]]];
        exact (Hmove 0 0).
    - reflexivity. }
  intros Hflag key. unfold handle. cbn [dispatch]. unfold _onKeyUp.
  rewrite Hflag. reflexivity.
Qed.

(** C8 (amended). An input event whose target is not in the side-table never
    raises an error, and what it does depends on the event: a pointer-up
    whose target is not a grid button is discarded, and an Enter or 8
    key-down while no element at all holds platform focus
    (document.activeElement is null) is ignored, in both cases leaving the
    state unchanged and calling no collaborator; a pointer move off the grid
    on a constrained-input device clears the focus indicator and changes
    nothing else.  In every reachable state no key or pointer handler raises
    an error. *)
Theorem unresolved_targets_ignored (history : list Input) :
  let w := run props isFeaturePhone cellFocusMode history in
  (forall target button, inGrid w (Some target) = false ->
     dispatch props isFeaturePhone cellFocusMode (MouseUpOnTable target button) w
     = mkOutcome (Normal tt) w []) /\
  (forall key, (key = "Enter" \/ key = "8")%string -> activeElement w = None ->
     dispatch props isFeaturePhone cellFocusMode (KeyDownOnTable key) w
     = mkOutcome (Normal tt) w []) /\
  (forall target, inGrid w (Some target) = false ->
     let o := dispatch props isFeaturePhone cellFocusMode (MouseMoveOnTable target) w in
     result o = Normal tt /\
     final o = (if isFeaturePhone || cellFocusMode
                then set_rendererFocus (-1, -1) w else w) /\
     clicks (trace o) = [] /\ animatorCalls (trace o) = []) /\
  (forall i : Input, isUserInput i = true ->
     result (dispatch props isFeaturePhone cellFocusMode i w) = Normal tt).
Proof.
  intros w. split; [|split; [|split]].
  - intros target button Hout. cbn [dispatch]. by apply onMouseUp_off.
  - intros key Hkey Hnull. cbn [dispatch].
    rewrite (onKeyDown_activate props w key Hkey). by rewrite Hnull.
  - intros target Hout o. unfold o. cbn [dispatch].
    destruct (isFeaturePhone || cellFocusMode); [|done].
    pose proof (moveFocusWithMouse_off w target Hout) as Hwp.
    apply wp_elim in Hwp. by destruct Hwp as (-> & -> & ->).
  - intros i Hi. apply dispatch_user_input; [by apply run_wf|done].
Qed.

End Claims.

(** C9. setFocus is idempotent: with a tab stop in place, calling setFocus
    twice in a row on the same grid button leaves the whole state -- tab
    stop, tabindex of every button, platform focus, focus indicator and
    everything else -- as one call leaves it. *)
Theorem setFocus_idempotent (w : World) (t : nat) :
  is_Some (_currentTabableBtn w) ->
  inGrid w (Some (Button t)) = true ->
  let once := setFocus (Some (Button t)) w in
  let twice := setFocus (Some (Button t)) (final once) in
  result once = Normal tt /\ result twice = Normal tt /\
  final twice = final once /\
  _currentTabableBtn (final once) = Some (Button t) /\
  activeElement (final once) = Some (Button t) /\
  Some (rendererFocus (final once)) = position w (Some (Button t)).
Proof.
  intros [c Hc] Hin once twice. cbn [inGrid] in Hin.
  apply bool_decide_eq_true_1 in Hin. destruct Hin as [d Hd].
  pose proof (setFocus_wp w c t d Hc Hd) as H1.
  apply wp_elim in H1. fold once in H1. destruct H1 as (Hr1 & Hf1 & _).
  assert (_currentTabableBtn (final once) = Some (Button t)) as Hc1 by (by rewrite Hf1).
  assert (_additionalButtonData (final once) !! t = Some d) as Hd1 by (by rewrite Hf1).
  pose proof (setFocus_wp (final once) (Button t) t d Hc1 Hd1) as H2.
  apply wp_elim in H2. fold twice in H2. destruct H2 as (Hr2 & Hf2 & _).
  split; [done|]. split; [done|]. split.
  - rewrite Hf2, Hf1. cbn [heap _buttons _additionalButtonData].
    by rewrite focused_heap_again.
  - rewrite Hf1. cbn [_currentTabableBtn activeElement rendererFocus position].
    by rewrite Hd.
Qed.

(** * The statements at concrete inputs *)

(** On a 2x2 board the delta (1, 1, revealed with 3 touching mines) makes the
    button 3 read "3". *)
Lemma description_recomputed_witness :
  description
    (final (_doManualDomHandling board2x2
              {| gridChanges := Some [(1, 1, revealedThree)] |}
              (run board2x2 false false []))) 3
  = Some "3"%string.
Proof.
  pose proof (description_recomputed board2x2 false false
                ltac:(reflexivity) ltac:(reflexivity)
                [] [(1, 1, revealedThree)] 3%nat
                ltac:(reflexivity) ltac:(vm_compute; lia)) as H.
  cbv zeta in H. destruct H as (_ & _ & _ & _ & H & _). exact H.
Defined.

(** The scenario of the specification: the batch [(1,1,blank)] relabels the
    button (1,1) and reaches the animator once, unchanged. *)
Lemma batch_applied_then_forwarded_witness :
  trace (_doManualDomHandling board2x2
           {| gridChanges := Some [(1, 1, revealedBlank)] |}
           (run board2x2 false false []))
  = [SetAttribute (Button 3) "aria-label" "blank";
     AnimatorUpdateCells [(1, 1, revealedBlank)]].
Proof.
  pose proof (batch_applied_then_forwarded board2x2 false false
                ltac:(reflexivity) ltac:(reflexivity)
                [] [(1, 1, revealedBlank)] ltac:(reflexivity)) as H.
  cbv zeta in H. destruct H as (_ & _ & _ & H & _). exact H.
Defined.

(** An empty gridChanges array still reaches the animator, and a delta
    outside a 2x2 board makes the handler throw before the animator call. *)
Lemma empty_batch_reaches_animator :
  trace (_doManualDomHandling board2x2 {| gridChanges := Some [] |}
                              (mounted board2x2))
  = [AnimatorUpdateCells []] /\
  result (_doManualDomHandling board2x2
            {| gridChanges := Some [(2, 2, revealedBlank)] |} (mounted board2x2))
  = TypeError /\
  animatorCalls
    (trace (_doManualDomHandling board2x2
              {| gridChanges := Some [(2, 2, revealedBlank)] |} (mounted board2x2)))
  = [].
Proof. vm_compute. repeat split. Qed.

Lemma move_focus_by_offset_witness :
  result (moveFocusByKey board5x5 1 0 (run board5x5 false false [])) = Normal tt.
Proof.
  pose proof (move_focus_by_offset board5x5 false false
                ltac:(reflexivity) ltac:(reflexivity) [] 1 0) as H.
  cbv zeta in H. destruct H as (x & y & _ & H & _). exact H.
Defined.

Lemma single_tab_stop_witness :
  exists t, tabStops (run board2x2 false false [KeyDownOnTable "9"]) = [t].
Proof.
  pose proof (single_tab_stop board2x2 false false
                ltac:(reflexivity) ltac:(reflexivity) [KeyDownOnTable "9"]) as H.
  cbv zeta in H. destruct H as (t & H & _). exists t. exact H.
Defined.

(** Focus at (0,0) on a constrained device; the pointer moves over (2,2):
    platform focus and the tab stop both move there, and a pointer-up then
    activates (2,2). *)
Lemma hover_changes_platform_focus :
  let w := run board3x3 true false [PlatformFocus (Some (Button 0))] in
  let o := dispatch board3x3 true false (MouseMoveOnTable (Button 8)) w in
  activeElement w = Some (Button 0) /\
  _currentTabableBtn w = Some (Button 0) /\
  activeElement (final o) = Some (Button 8) /\
  _currentTabableBtn (final o) = Some (Button 8) /\
  clicks (trace (dispatch board3x3 true false (MouseUpOnTable (Button 8) 0) (final o)))
  = [(Some (2, 2, defaultCell), false)].
Proof. vm_compute. repeat split. Qed.

Lemma hover_moves_focus_witness :
  result (dispatch board3x3 true false (MouseMoveOnTable (Button 8))
            (run board3x3 true false [PlatformFocus (Some (Button 0))]))
  = Normal tt.
Proof.
  pose proof (hover_moves_focus board3x3 true false
                ltac:(reflexivity) ltac:(reflexivity)
                [PlatformFocus (Some (Button 0))] (Button 8)) as H.
  cbv zeta in H. cbn [orb] in H. destruct H as (H & _). exact H.
Defined.

Lemma pointer_up_activation_witness :
  result (dispatch board3x3 true false (MouseUpOnTable (Button 8) 2)
            (run board3x3 true false []))
  = Normal tt.
Proof.
  pose proof (pointer_up_activation board3x3 true false
                ltac:(reflexivity) ltac:(reflexivity) [] 8%nat 2
                ltac:(vm_compute; lia)) as H.
  cbv zeta in H. destruct H as (H & _). exact H.
Defined.

(** On a 2x2 board with both flags off and focus on the button 0, the key 8
    activates it. *)
Lemma digit_keys_on_every_device_witness :
  exists cell,
    dispatch board2x2 false false (KeyDownOnTable "8")
      (run board2x2 false false [PlatformFocus (Some (Button 0))])
    = mkOutcome (Normal tt)
        (run board2x2 false false [PlatformFocus (Some (Button 0))])
        [PreventDefault; OnCellClick (Some (coordinates board2x2 0, cell)) false].
Proof.
  pose proof (digit_keys_on_every_device board2x2 false false
                ltac:(reflexivity) ltac:(reflexivity)
                [PlatformFocus (Some (Button 0))]) as H.
  cbv beta zeta in H. destruct H as (_ & (_ & H) & _).
  destruct (H 0%nat ltac:(vm_compute; reflexivity) ltac:(vm_compute; reflexivity))
    as (cell & _ & Hc).
  exists cell. exact Hc.
Defined.

(** Without the constrained-device flags, on a 2x2 board with focus at (0,0),
    the key 9 moves focus to (1,0) and the key 8 activates (0,0). *)
Lemma digit_keys_work_without_flags :
  let w := run board2x2 false false [PlatformFocus (Some (Button 0))] in
  let o := dispatch board2x2 false false (KeyDownOnTable "9") w in
  _currentTabableBtn w = Some (Button 0) /\
  _currentTabableBtn (final o) = Some (Button 1) /\
  activeElement (final o) = Some (Button 1) /\
  rendererFocus (final o) = (1, 0) /\
  clicks (trace (dispatch board2x2 false false (KeyDownOnTable "8") w))
  = [(Some (0, 0, defaultCell), false)].
Proof. vm_compute. repeat split. Qed.

(** Two events whose target is not in the side-table and that are not
    no-ops.  On a constrained device with the indicator at (1,1), a pointer
    move over something that is not a grid button clears the indicator.
    With the body holding focus, Enter calls the activation callback, and
    without data. *)
Lemma unresolved_targets_not_all_ignored :
  let hovered := run board2x2 true false [MouseMoveOnTable (Button 3)] in
  let off := dispatch board2x2 true false (MouseMoveOnTable (OtherElement 5)) hovered in
  let w := mounted board2x2 in
  inGrid hovered (Some (OtherElement 5)) = false /\
  rendererFocus hovered = (1, 1) /\
  rendererFocus (final off) = (-1, -1) /\
  trace off = [RendererSetFocus (-1) (-1)] /\
  activeElement w = Some body /\
  inGrid w (activeElement w) = false /\
  trace (dispatch board2x2 false false (KeyDownOnTable "Enter") w)
  = [PreventDefault; OnCellClick None false].
Proof. vm_compute. repeat split. Qed.

Lemma unresolved_targets_ignored_witness :
  dispatch board2x2 false false (MouseUpOnTable (OtherElement 7) 0)
           (run board2x2 false false [])
  = mkOutcome (Normal tt) (run board2x2 false false []) [].
Proof.
  pose proof (unresolved_targets_ignored board2x2 false false
                ltac:(reflexivity) ltac:(reflexivity) []) as H.
  cbv zeta in H. destruct H as (H & _).
  exact (H (OtherElement 7) 0 ltac:(reflexivity)).
Defined.

Lemma setFocus_idempotent_witness :
  final (setFocus (Some (Button 3))
           (final (setFocus (Some (Button 3)) (mounted board2x2))))
  = final (setFocus (Some (Button 3)) (mounted board2x2)).
Proof.
  pose proof (setFocus_idempotent (mounted board2x2) 3
                ltac:(exists (Button 0); vm_compute; reflexivity)
                ltac:(vm_compute; reflexivity)) as H.
  cbv zeta in H. destruct H as (_ & _ & H & _). exact H.
Defined.

Lemma out_of_bounds_delta_witness :
  result (_doManualDomHandling board2x2
            {| gridChanges := Some [(2, 2, revealedBlank)] |}
            (run board2x2 false false []))
  = TypeError.
Proof.
  pose proof (out_of_bounds_delta board2x2 false false
                ltac:(reflexivity) ltac:(reflexivity)
                [] [] [] 2 2 revealedBlank
                ltac:(reflexivity) ltac:(reflexivity)) as H.
  cbv zeta in H. destruct H as (H & _).
  destruct (H ltac:(reflexivity)) as (Hr & _). exact Hr.
Defined.

(** The scenario of the specification on a 5x5 board: three moves right from
    (0,0) reach (3,0), a fourth reaches (4,0), a fifth changes nothing. *)
Example five_moves_right :
  let right := KeyDownOnTable "ArrowRight" in
  let at_ n := run board5x5 false false (repeat right n) in
  position (at_ 3%nat) (_currentTabableBtn (at_ 3%nat)) = Some (3, 0) /\
  position (at_ 4%nat) (_currentTabableBtn (at_ 4%nat)) = Some (4, 0) /\
  at_ 5%nat = at_ 4%nat.
Proof. vm_compute. repeat split. Qed.

(** The examples of the precedence table. *)
Example describe_examples :
  describe revealedBlank = "blank"%string /\
  describe hiddenFlag = "flag"%string /\
  describe revealedMine = "black hole"%string /\
  describe revealedThree = "3"%string /\
  describe defaultCell = "hidden"%string.
Proof. repeat split. Qed.

(** * Further properties of the component *)

(** ** What the focus handlers leave alone *)

Lemma lower_tabIndex_not_label : lower "tabIndex" <> "aria-label"%string.
Proof. rewrite lower_tabIndex. done. Qed.

Lemma description_focused_heap (w : World) (c : Element) (t id : nat) a r cur :
  description (mkWorld (focused_heap c t (heap w)) (_buttons w)
                       (_additionalButtonData w) cur a r) id
  = description w id.
Proof.
  unfold description, getAttribute, focused_heap. cbn [heap].
  rewrite attribute_kept by (right; apply lower_tabIndex_not_label).
  destruct c as [c|c]; [|done].
  by rewrite attribute_kept by (right; apply lower_tabIndex_not_label).
Qed.

Lemma length_focused_heap (c : Element) (t : nat) (h : list HTMLButtonElement) :
  length (focused_heap c t h) = length h.
Proof. unfold focused_heap. rewrite length_alter. destruct c; by rewrite ?length_alter. Qed.

Lemma sameCells_refl (w : World) : sameCells w w.
Proof. by repeat split. Qed.

Lemma sameCells_moved (props : Props) (w : World) (t : nat) :
  sameCells w (moved props w t).
Proof.
  unfold moved. split; [done|]. split; [done|].
  split; [apply length_focused_heap|]. intros id. apply description_focused_heap.
Qed.

Lemma focusShape_sameCells (props : Props) (w w' : World) :
  focusShape props w w' -> sameCells w w'.
Proof.
  intros [->|[(t & _ & ->)|[(_ & e & ->)|[(e & ->)| ->]]]];
    [apply sameCells_refl|apply sameCells_moved|by repeat split..].
Qed.

Section Shapes.

Variable props : Props.
Variables isFeaturePhone cellFocusMode : bool.

Lemma position_not_inGrid (w : World) (el : option Element) :
  inGrid w el = false -> position w el = None.
Proof.
  intros Hout. apply weakGet_inGrid in Hout.
  destruct el as [[id|id]|]; try done. cbn [position]. by rewrite Hout.
Qed.

Lemma focusShape_indicator (w w' : World) :
  wf props w -> indicatorConsistent w -> focusShape props w w' ->
  indicatorConsistent w'.
Proof.
  intros Hwf Hind [->|[(t & Ht & ->)|[(Hout & e & ->)|[(e & ->)| ->]]]].
  - done.
  - right. unfold moved. cbn [activeElement rendererFocus position _additionalButtonData].
    destruct Hwf as (_ & _ & Hok & _). destruct (ok_data _ _ Hok _ Ht) as [c ->]. done.
  - left. destruct Hind as [Hc|Hp]; [done|].
    by rewrite (position_not_inGrid w _ Hout) in Hp.
  - by left.
  - by left.
Qed.

Lemma moveFocusByKey_shape (w : World) (h v : Z) :
  wf props w ->
  focusShape props w (final (moveFocusByKey props h v w)) /\
  animatorCalls (trace (moveFocusByKey props h v w)) = [].
Proof.
  intros Hwf. destruct (moveFocusByKey_wp props w h v Hwf) as (x & y & _ & Hwp).
  apply wp_elim in Hwp. cbv beta zeta in Hwp.
  destruct Hwp as (_ & _ & _ & Han & Hin & Hout). split; [|done].
  destruct (inside props (x + h) (y + v)) eqn:Hi.
  - destruct (Hin eq_refl) as (Hw' & Hrov & _). right. left.
    exists (Z.to_nat (x + h + (y + v) * width props)). split; [|done].
    destruct Hrov as (_ & Hlt & _). rewrite Hw' in Hlt. unfold moved in Hlt.
    cbn [heap] in Hlt. by rewrite length_focused_heap in Hlt.
  - destruct (Hout eq_refl) as [Hw' _]. rewrite Hw'.
    destruct (inGrid w (activeElement w)) eqn:Hact; [by left|].
    right. right. left. split; [done|]. by eexists.
Qed.

Lemma platformFocus_shape (w : World) (el : option Element) :
  wf props w ->
  focusShape props w
    (final (dispatch props isFeaturePhone cellFocusMode (PlatformFocus el) w)) /\
  activeElement
    (final (dispatch props isFeaturePhone cellFocusMode (PlatformFocus el) w)) = el /\
  animatorCalls
    (trace (dispatch props isFeaturePhone cellFocusMode (PlatformFocus el) w)) = [] /\
  clicks
    (trace (dispatch props isFeaturePhone cellFocusMode (PlatformFocus el) w)) = [].
Proof.
  intros Hwf. cbn [dispatch]. unfold fireBlur, removeFocusVisual, renderer_setFocus.
  apply (wp_elim _ _ (fun _ w' tr =>
    focusShape props w w' /\ activeElement w' = el /\
    animatorCalls tr = [] /\ clicks tr = [])).
  wp_run. case_bool_decide as Ha; wp_run; [by split; [left|]|].
  assert (forall a, activeElement w = Some (Button a) -> heap w !! a = None ->
          inGrid w (activeElement w) = false) as Hdangling.
  { intros a Hact Hnone. rewrite Hact. cbn [inGrid].
    apply bool_decide_eq_false_2. intros Hsome.
    destruct Hwf as (_ & _ & Hok & _). pose proof (ok_keys _ _ Hok _ Hsome) as Hlt.
    apply lookup_lt_is_Some_2 in Hlt. rewrite Hnone in Hlt. by destruct Hlt. }
  destruct (activeElement w) as [[a|a]|] eqn:Hact; wp_run.
  - destruct (heap w !! a) as [b|] eqn:Hb.
    + destruct Hwf as (_ & _ & Hok & _). rewrite (ok_blur _ _ Hok _ _ Hb). wp_run.
      split; [|done]. right. right. right. left. by exists el.
    + wp_run. split; [|done]. right. right. left.
      split; [rewrite Hact; by apply (Hdangling a)|]. by exists el.
  - split; [|done]. right. right. left. split; [by rewrite Hact|]. by exists el.
  - split; [|done]. right. right. left. split; [by rewrite Hact|]. by exists el.
Qed.

(** Every input other than a push from the game logic leads to one of the
    shapes, and never calls the animator. *)
Lemma dispatch_shape (w : World) (i : Input) :
  wf props w -> isGameChange i = false ->
  focusShape props w (final (dispatch props isFeaturePhone cellFocusMode i w)) /\
  animatorCalls (trace (dispatch props isFeaturePhone cellFocusMode i w)) = [].
Proof.
  intros Hwf Hi. destruct i as [key|key|key|target button| |target| |sc|el];
    try done; cbn [dispatch].
  - unfold onKeyDownOnTable.
    destruct (String.eqb key "Enter" || String.eqb key "8").
    + unfold simulateClick, weakGet, bind, gets, emit, ret. cbn [result final trace].
      destruct (activeElement w); by split; [left|].
    + repeat match goal with
             | |- context [if ?b then _ else _] => destruct b
             end; try (by apply moveFocusByKey_shape); by split; [left|].
  - unfold onKeyUpOnTable. destruct (String.eqb key "Tab");
      [by apply moveFocusByKey_shape|by split; [left|]].
  - unfold _onKeyUp. destruct (_ && _);
      [by apply moveFocusByKey_shape|by split; [left|]].
  - destruct (inGrid w (Some target)) eqn:Hin.
    + destruct target as [t|t]; [|done].
      destruct (inGrid_data props w t Hwf Hin) as (Hlt & _).
      pose proof (onMouseUp_grid props isFeaturePhone cellFocusMode w t button
                    Hwf Hin) as Hwp.
      apply wp_elim in Hwp. cbv beta in Hwp. destruct Hwp as (_ & _ & Han & Hcase).
      split; [|done].
      destruct ((isFeaturePhone || cellFocusMode) && negb (inGrid w (activeElement w))).
      * destruct Hcase as [-> _]. right. left. by exists t.
      * destruct Hcase as [-> _]. by left.
    + rewrite onMouseUp_off by done. by split; [left|].
  - by split; [left|].
  - destruct (isFeaturePhone || cellFocusMode); [|by split; [left|]].
    destruct (inGrid w (Some target)) eqn:Hin.
    + destruct target as [t|t]; [|done].
      destruct (inGrid_data props w t Hwf Hin) as (Hlt & _).
      pose proof (moveFocusWithMouse_grid props w t Hwf Hin) as Hwp.
      apply wp_elim in Hwp. destruct Hwp as (_ & _ & _ & -> & _ & Han).
      split; [|done]. right. left. by exists t.
    + pose proof (moveFocusWithMouse_off w target Hin) as Hwp.
      apply wp_elim in Hwp. destruct Hwp as (_ & -> & ->).
      split; [|done]. by repeat right.
  - by split; [left|].
  - destruct (platformFocus_shape w el Hwf) as (Hs & _ & Han & _). done.
Qed.

End Shapes.

(** ** What the sync bridge leaves alone *)

Lemma lower_aria_label_not_tabindex : lower "aria-label" <> "tabindex"%string.
Proof. rewrite lower_aria_label. done. Qed.

Lemma sameFocus_refl (w : World) : sameFocus w w.
Proof. by repeat split. Qed.

Lemma sameFocus_trans (w1 w2 w3 : World) :
  sameFocus w1 w2 -> sameFocus w2 w3 -> sameFocus w1 w3.
Proof.
  intros (Hb & Hc & Ha & Hr & Hl & Ht & Hp) (Hb' & Hc' & Ha' & Hr' & Hl' & Ht' & Hp').
  split; [congruence|]. split; [congruence|]. split; [congruence|].
  split; [congruence|]. split; [congruence|]. split.
  - intros id. by rewrite Ht', Ht.
  - intros el. by rewrite Hp', Hp.
Qed.

Lemma sameFocus_updated (w : World) (id : nat) (cell : Cell) :
  sameFocus w (updated id cell w).
Proof.
  unfold updated. repeat split; world_norm; try done.
  - by rewrite length_alter.
  - intros id'. unfold getAttribute. cbn [heap].
    apply attribute_kept. right. apply lower_aria_label_not_tabindex.
  - intros el. apply (position_updated w el id cell).
Qed.

Lemma sameFocus_tabStops (w w' : World) : sameFocus w w' -> tabStops w' = tabStops w.
Proof.
  intros (_ & _ & _ & _ & Hl & Ht & _). unfold tabStops. rewrite Hl.
  apply list_filter_iff. intros id. by rewrite Ht.
Qed.

Lemma rendererCalls_labelWrites (props : Props) (changes : list GridChange) :
  rendererCalls (map (labelWrite props) changes) = [].
Proof. induction changes as [|c cs IH]; [done|]. exact IH. Qed.

Lemma labelsConsistent_updated (w : World) (id : nat) (cell : Cell) :
  labelsConsistent w -> labelsConsistent (updated id cell w).
Proof.
  intros Hl id' Hid'.
  assert (id' < length (heap w))%nat as Hlt.
  { unfold updated in Hid'. world_norm. by rewrite length_alter in Hid'. }
  destruct (Hl id' Hlt) as (c & Hs & Hd).
  rewrite description_updated by done. rewrite storedCell_updated.
  - case_bool_decide; [|by exists c]. exists cell. by rewrite cellState_describe.
  - unfold storedCell in Hs. destruct (_ !! id') eqn:Hq; [by eexists|done].
Qed.

Lemma labelsConsistent_sameCells (w w' : World) :
  sameCells w w' -> labelsConsistent w -> labelsConsistent w'.
Proof.
  intros (_ & Hd & Hlen & Hdesc) Hl id Hid. rewrite Hlen in Hid.
  destruct (Hl id Hid) as (c & Hs & Hdc). exists c.
  unfold storedCell in *. by rewrite Hd, Hdesc.
Qed.

Section SyncFrame.

Variable props : Props.
Variables isFeaturePhone cellFocusMode : bool.

Lemma sameFocus_applyChanges (w : World) (changes : list GridChange) :
  sameFocus w (applyChanges props changes w).
Proof.
  revert w. induction changes as [|c cs IH]; intros w; [apply sameFocus_refl|].
  cbn [applyChanges fold_left]. eapply sameFocus_trans; [|apply IH].
  apply sameFocus_updated.
Qed.

Lemma labelsConsistent_applyChanges (w : World) (changes : list GridChange) :
  labelsConsistent w -> labelsConsistent (applyChanges props changes w).
Proof.
  revert w. induction changes as [|c cs IH]; intros w Hl; [done|].
  cbn [applyChanges fold_left]. apply IH. by apply labelsConsistent_updated.
Qed.

(** Whatever the batch, the handler ends in the world where a prefix of the
    batch has been applied, and has called neither the renderer nor the
    activation callback. *)
Lemma doManualDomHandling_applied (w : World) (stateChange : StateChange) :
  wf props w ->
  exists applied,
    final (_doManualDomHandling props stateChange w) = applyChanges props applied w /\
    rendererCalls (trace (_doManualDomHandling props stateChange w)) = [] /\
    clicks (trace (_doManualDomHandling props stateChange w)) = [].
Proof.
  intros Hwf. destruct stateChange as [[changes|]]; [|by exists []].
  destruct (forallb (resolvable props) changes) eqn:Hres.
  - pose proof (doManualDomHandling_wp props w changes Hwf Hres) as Hwp.
    apply wp_elim in Hwp. destruct Hwp as (_ & -> & -> & _). exists changes.
    split; [done|]. unfold rendererCalls, clicks. rewrite !omap_app.
    fold (rendererCalls (map (labelWrite props) changes)).
    fold (clicks (map (labelWrite props) changes)).
    by rewrite rendererCalls_labelWrites, clicks_labelWrites.
  - assert (exists pre change post,
      changes = pre ++ change :: post /\
      forallb (resolvable props) pre = true /\
      resolvable props change = false) as (pre & change & post & -> & Hpre & Hbad).
    { clear Hwf. induction changes as [|c cs IH]; [done|].
      cbn [forallb] in Hres. destruct (resolvable props c) eqn:Hc.
      - destruct (IH Hres) as (pre & change & post & -> & Hpre & Hbad).
        exists (c :: pre), change, post. cbn [forallb]. by rewrite Hc.
      - by exists [], c, cs. }
    pose proof (doManualDomHandling_throws props w pre post change Hwf Hpre Hbad)
      as Hwp.
    apply wp_elim in Hwp. destruct Hwp as (_ & -> & -> & _). exists pre.
    split; [done|]. by rewrite rendererCalls_labelWrites, clicks_labelWrites.
Qed.

Lemma mounted_consistent :
  0 < width props -> 0 < height props ->
  labelsConsistent (mounted props) /\ indicatorConsistent (mounted props).
Proof.
  intros HW HH. destruct (mounted_built props HW HH) as [_ Hb]. split.
  - intros id Hid. rewrite (built_length _ _ _ Hb) in Hid. exists defaultCell.
    unfold storedCell, description, getAttribute.
    rewrite (built_data _ _ _ Hb) by done. rewrite (built_heap _ _ _ Hb) by done.
    split; [done|]. cbn [mbind option_bind new_button attributes].
    by rewrite lookup_insert_eq.
  - left. apply (built_renderer _ _ _ Hb).
Qed.

Lemma dispatch_consistent (w : World) (i : Input) :
  wf props w -> labelsConsistent w -> indicatorConsistent w ->
  labelsConsistent (final (dispatch props isFeaturePhone cellFocusMode i w)) /\
  indicatorConsistent (final (dispatch props isFeaturePhone cellFocusMode i w)).
Proof.
  intros Hwf Hl Hi. destruct (isGameChange i) eqn:Hg.
  - destruct i; try done. cbn [dispatch].
    destruct (doManualDomHandling_applied w stateChange Hwf) as (applied & -> & _).
    split; [by apply labelsConsistent_applyChanges|].
    destruct (sameFocus_applyChanges w applied) as (_ & _ & Ha & Hr & _ & _ & Hp).
    unfold indicatorConsistent. by rewrite Ha, Hr, Hp.
  - destruct (dispatch_shape props isFeaturePhone cellFocusMode w i Hwf Hg)
      as [Hs _].
    split.
    + eapply labelsConsistent_sameCells; [by eapply focusShape_sameCells|done].
    + by eapply focusShape_indicator.
Qed.

Lemma run_consistent (history : list Input) :
  0 < width props -> 0 < height props ->
  labelsConsistent (run props isFeaturePhone cellFocusMode history) /\
  indicatorConsistent (run props isFeaturePhone cellFocusMode history).
Proof.
  intros HW HH. induction history as [|i history IH] using rev_ind.
  - by apply mounted_consistent.
  - unfold run in *. rewrite fold_left_app. cbn [fold_left].
    destruct IH as [Hl Hi]. apply dispatch_consistent; [|done..].
    by apply (run_wf props isFeaturePhone cellFocusMode HW HH history).
Qed.

End SyncFrame.

(** ** Moving twice *)

Lemma write_tabindex_same (v : string) (b : HTMLButtonElement) :
  attributes b !! "tabindex"%string = Some v -> write_attribute "tabIndex" v b = b.
Proof.
  intros Hb. destruct b as [attrs bl]. unfold write_attribute.
  cbn [attributes blurListener] in *. rewrite lower_tabIndex.
  by rewrite insert_id.
Qed.

Lemma alter_fixed (f : HTMLButtonElement -> HTMLButtonElement) (i : nat)
      (l : list HTMLButtonElement) :
  (forall x, l !! i = Some x -> f x = x) -> alter f i l = l.
Proof.
  intros Hf. rewrite (list_alter_ext f id l l i); [|done|done].
  by apply list_alter_id.
Qed.

Section Moves.

Variable props : Props.

(** After a move to [t1], a move to [t2] leaves the world a direct move to
    [t2] would have left. *)
Lemma moved_moved (w : World) (t1 t2 : nat) :
  wf props w -> (t1 < length (heap w))%nat ->
  moved props (moved props w t1) t2 = moved props w t2.
Proof.
  intros (_ & _ & _ & c0 & Hcur & Hc0 & Htab) Ht1.
  unfold moved. cbn [heap _buttons _additionalButtonData _currentTabableBtn].
  rewrite Hcur. f_equal. unfold focused_heap, default, id. cbv beta iota.
  rewrite (list_alter_alter_eq _ _ _ t1).
  set (g := alter (write_attribute "tabIndex" "-1") c0 (heap w)).
  assert (alter (write_attribute "tabIndex" "-1" ∘ write_attribute "tabIndex" "0") t1 g
          = alter (write_attribute "tabIndex" "-1") t1 g) as ->.
  { apply list_alter_ext; [|done]. intros x _. cbn [compose].
    apply write_tabindex_absorb. }
  subst g.
  destruct (decide (t2 = t1)) as [->|Hne].
  - rewrite list_alter_alter_eq. apply list_alter_ext; [|done].
    intros x _. cbn [compose]. apply write_tabindex_absorb.
  - rewrite list_alter_alter_ne by done. apply alter_fixed.
    intros x Hx. rewrite list_lookup_alter_ne in Hx by done.
    destruct (decide (c0 = t1)) as [->|Hc].
    + rewrite list_lookup_alter_eq in Hx. destruct (heap w !! t1) as [b|]; [|done].
      injection Hx as <-. apply write_tabindex_absorb.
    + rewrite list_lookup_alter_ne in Hx by done.
      specialize (Htab t1 Ht1). unfold getAttribute in Htab. rewrite Hx in Htab.
      cbn [mbind option_bind] in Htab.
      rewrite bool_decide_eq_false_2 in Htab by congruence.
      by apply write_tabindex_same.
Qed.

(** The button a move starts from is a grid button with its own coordinate. *)
Lemma origin_button (w : World) :
  wf props w ->
  exists n, origin w = Some (Button n) /\ (n < length (heap w))%nat /\
            position w (origin w) = Some (coordinates props n).
Proof.
  intros Hwf. unfold origin. destruct (inGrid w (activeElement w)) eqn:Hin.
  - destruct (activeElement w) as [[a|a]|]; try done.
    destruct (inGrid_data props w a Hwf Hin) as (Hlt & c & Hc).
    exists a. cbn [position]. by rewrite Hc.
  - destruct (wf_tab_stop props w Hwf) as (t & c & (Hcur & Hlt & _) & Hc).
    exists t. rewrite Hcur. cbn [position]. by rewrite Hc.
Qed.

(** A move in closed form: to the button at the offset when it is on the
    board, nowhere otherwise. *)
Lemma moveFocusByKey_final (w : World) (h v : Z) :
  wf props w ->
  exists n, origin w = Some (Button n) /\ (n < length (heap w))%nat /\
    let x := fst (coordinates props n) in
    let y := snd (coordinates props n) in
    result (moveFocusByKey props h v w) = Normal tt /\
    wf props (final (moveFocusByKey props h v w)) /\
    clicks (trace (moveFocusByKey props h v w)) = [] /\
    (inside props (x + h) (y + v) = true ->
       let t := Z.to_nat (x + h + (y + v) * width props) in
       (t < length (heap w))%nat /\ coordinates props t = (x + h, y + v) /\
       final (moveFocusByKey props h v w) = moved props w t) /\
    (inside props (x + h) (y + v) = false ->
       final (moveFocusByKey props h v w)
       = (if inGrid w (activeElement w) then w
          else set_activeElement (_currentTabableBtn w) w) /\
       trace (moveFocusByKey props h v w) = [StopPropagation]).
Proof.
  intros Hwf. destruct (origin_button w Hwf) as (n & Ho & Hn & Hp).
  exists n. split; [done|]. split; [done|].
  destruct (moveFocusByKey_wp props w h v Hwf) as (x & y & Hpos & Hwp).
  rewrite Hp in Hpos.
  assert (coordinates props n = (x, y)) as Hco by congruence.
  rewrite Hco. cbn [fst snd].
  apply wp_elim in Hwp. cbv beta zeta in Hwp.
  destruct Hwp as (Hr & Hwf' & Hcl & _ & Hin & Hout).
  split; [done|]. split; [done|]. split; [done|]. split; [|done].
  intros Hi. destruct (Hin Hi) as (Hw' & (_ & Hlt & _) & Hc & _).
  split; [|done]. rewrite Hw' in Hlt. unfold moved in Hlt. cbn [heap] in Hlt.
  by rewrite length_focused_heap in Hlt.
Qed.

End Moves.

(** ** Construction, invariants and compositions *)

Lemma forEach_noop {A} (body : A -> M unit) (l : list A) (w : World) :
  (forall a, body a w = mkOutcome (Normal tt) w []) ->
  forEach l body w = mkOutcome (Normal tt) w [].
Proof.
  intros Hbody. induction l as [|a l IH]; [done|].
  cbn [forEach]. unfold bind. rewrite Hbody. cbn [result final trace].
  by rewrite IH.
Qed.

Lemma run_app (props : Props) (isFeaturePhone cellFocusMode : bool)
      (history more : list Input) :
  run props isFeaturePhone cellFocusMode (history ++ more)
  = fold_left (fun w i => final (dispatch props isFeaturePhone cellFocusMode i w))
              more (run props isFeaturePhone cellFocusMode history).
Proof. unfold run. apply fold_left_app. Qed.

(** An empty grid cannot be mounted: with no row or no column the loops of
    [_createTable] create nothing, and [_queryFirstCellRect] then reads
    [this._buttons[0]] of an empty array and throws. *)
Theorem mount_empty_grid_throws (props : Props) :
  width props <= 0 \/ height props <= 0 ->
  componentDidMount props unmounted = mkOutcome TypeError unmounted [].
Proof.
  intros Hempty.
  assert (_createTable (width props) (height props) unmounted
          = mkOutcome (Normal tt) unmounted []) as Htable.
  { unfold _createTable, forUpTo. destruct Hempty as [HW|HH].
    - apply forEach_noop. intros row.
      replace (Z.to_nat (width props)) with 0%nat by lia. reflexivity.
    - replace (Z.to_nat (height props)) with 0%nat by lia. reflexivity. }
  unfold componentDidMount, bind. rewrite Htable. reflexivity.
Qed.

Section Extras.

Variable props : Props.
Variables isFeaturePhone cellFocusMode : bool.
Hypothesis width_pos : 0 < width props.
Hypothesis height_pos : 0 < height props.

(** Mounting a board with positive dimensions returns normally and leaves
    width*height buttons in row-major order: the button at index
    y*width + x is registered with [[x, y, defaultCell]], is labelled
    "hidden", carries the blur listener, and has tabindex 0 exactly when it
    is the first one.  The first button is the tab stop; platform focus and
    the focus indicator are not touched. *)
Theorem createTable_builds_grid (x y : Z) :
  0 <= x < width props -> 0 <= y < height props ->
  let o := componentDidMount props unmounted in
  let w := final o in
  let n := Z.to_nat (y * width props + x) in
  result o = Normal tt /\
  Z.of_nat (length (_buttons w)) = width props * height props /\
  result (buttonAt (y * width props + x) w) = Normal (Some (Button n)) /\
  buttonData w (Some (Button n)) = Some (x, y, defaultCell) /\
  description w n = Some "hidden"%string /\
  getAttribute w n "tabindex"
  = Some (if (x =? 0) && (y =? 0) then "0" else "-1") /\
  blurListener <$> heap w !! n = Some true /\
  _currentTabableBtn w = Some (Button 0) /\
  activeElement w = activeElement unmounted /\
  rendererFocus w = rendererFocus unmounted.
Proof.
  intros Hx Hy o w n.
  destruct (mounted_built props width_pos height_pos) as [Hr Hb].
  fold o in Hr. unfold mounted in Hb. fold o in Hb. fold w in Hb.
  assert (n < Z.to_nat (width props * height props))%nat as Hn by (unfold n; nia).
  assert (coordinates props n = (x, y)) as Hco.
  { unfold n. rewrite Z.add_comm. apply coordinates_index; lia. }
  split; [done|]. split.
  { rewrite (built_buttons _ _ _ Hb), length_fmap, length_seq. nia. }
  split.
  { cbn [buttonAt gets result]. destruct (Z.leb_spec 0 (y * width props + x)); [|nia].
    fold n. rewrite (built_buttons _ _ _ Hb), list_lookup_fmap.
    by rewrite lookup_seq_lt. }
  split; [by cbn [buttonData]; rewrite (built_data _ _ _ Hb), Hco|].
  unfold description, getAttribute. rewrite (built_heap _ _ _ Hb) by done.
  cbn [mbind option_bind new_button attributes fmap option_fmap option_map
       blurListener].
  split; [by rewrite lookup_insert_eq|]. split.
  { rewrite lookup_insert_ne by done. rewrite lookup_insert_eq.
    replace ((x =? 0) && (y =? 0)) with (bool_decide (n = 0%nat)); [done|].
    case_bool_decide as Hz.
    - assert (x = 0 /\ y = 0) as [-> ->] by (unfold n in Hz; nia). done.
    - symmetry. apply andb_false_iff.
      destruct (Z.eqb_spec x 0) as [->|]; [|by left]. right.
      apply Z.eqb_neq. intros ->. apply Hz. unfold n. lia. }
  split; [done|]. split.
  { rewrite (built_tabable _ _ _ Hb). by rewrite bool_decide_eq_false_2 by nia. }
  split; [apply (built_active _ _ _ Hb)|apply (built_renderer _ _ _ Hb)].
Qed.

(** In every reachable state the array and the WeakMap agree on the
    geometry: there are width*height buttons, [this._buttons[y*width + x]]
    is the button registered under the coordinate (x, y), and every
    registered button sits at the index its coordinate gives.  No handler
    ever changes a registered coordinate. *)
Theorem coordinates_never_change (history : list Input) :
  let w := run props isFeaturePhone cellFocusMode history in
  Z.of_nat (length (_buttons w)) = width props * height props /\
  (forall x y, 0 <= x < width props -> 0 <= y < height props ->
     let n := Z.to_nat (y * width props + x) in
     result (buttonAt (y * width props + x) w) = Normal (Some (Button n)) /\
     position w (Some (Button n)) = Some (x, y)) /\
  (forall n, inGrid w (Some (Button n)) = true ->
     exists x y, 0 <= x < width props /\ 0 <= y < height props /\
       position w (Some (Button n)) = Some (x, y) /\
       Z.of_nat n = y * width props + x /\
       position (mounted props) (Some (Button n)) = Some (x, y)).
Proof.
  intros w. assert (wf props w) as Hwf by (by apply run_wf).
  pose proof Hwf as (_ & _ & Hok & _). split.
  { rewrite (ok_buttons _ _ Hok), length_fmap, length_seq. apply (ok_size _ _ Hok). }
  split.
  - intros x y Hx Hy n. subst n.
    assert (0 <= y * width props + x < width props * height props) as Hidx by nia.
    destruct (wf_lookup_button props w _ Hwf Hidx) as [Hbtn Hlt].
    split.
    + cbn [buttonAt gets result].
      destruct (Z.leb_spec 0 (y * width props + x)); [|lia]. by rewrite Hbtn.
    + destruct (ok_data _ _ Hok _ Hlt) as [c Hc]. cbn [position]. rewrite Hc.
      cbn [fmap option_fmap option_map fst]. f_equal.
      rewrite Z.add_comm. apply coordinates_index; lia.
  - intros n Hin. destruct (inGrid_data props w n Hwf Hin) as (Hlt & c & Hc).
    destruct (coordinates_inside props w n Hwf Hlt) as (Hx & Hy & Hn).
    exists (fst (coordinates props n)), (snd (coordinates props n)).
    split; [done|]. split; [done|]. split.
    { cbn [position]. rewrite Hc. by destruct (coordinates props n). }
    split; [lia|].
    destruct (mounted_built props width_pos height_pos) as [_ Hb].
    cbn [position]. rewrite (built_data _ _ _ Hb).
    + by destruct (coordinates props n).
    + pose proof (ok_size _ _ Hok). lia.
Qed.

(** A push from the game logic never touches focus, whatever it carries and
    even when it throws: the tab stop, the tabindex of every button, platform
    focus, the focus indicator and every registered coordinate are as
    before, and neither the renderer nor the activation callback is called. *)
Theorem sync_leaves_focus_alone (history : list Input) (stateChange : StateChange) :
  let w := run props isFeaturePhone cellFocusMode history in
  let o := dispatch props isFeaturePhone cellFocusMode (GameChange stateChange) w in
  sameFocus w (final o) /\
  tabStops (final o) = tabStops w /\
  rendererCalls (trace o) = [] /\
  clicks (trace o) = [].
Proof.
  intros w o. assert (wf props w) as Hwf by (by apply run_wf).
  destruct (doManualDomHandling_applied props w stateChange Hwf)
    as (applied & Hf & Hr & Hc).
  unfold o. cbn [dispatch]. rewrite Hf.
  pose proof (sameFocus_applyChanges props w applied) as Hs.
  split; [done|]. split; [by apply sameFocus_tabStops|done].
Qed.

(** Key, pointer and platform-focus inputs never touch what the sync bridge
    maintains: the label and the stored cell of every button are as before,
    and the animator is not called. *)
Theorem input_leaves_cells_alone (history : list Input) (i : Input) :
  isGameChange i = false ->
  let w := run props isFeaturePhone cellFocusMode history in
  let o := dispatch props isFeaturePhone cellFocusMode i w in
  _additionalButtonData (final o) = _additionalButtonData w /\
  (forall id, description (final o) id = description w id) /\
  (forall id, storedCell (final o) id = storedCell w id) /\
  _buttons (final o) = _buttons w /\
  animatorCalls (trace o) = [].
Proof.
  intros Hi w o. assert (wf props w) as Hwf by (by apply run_wf).
  destruct (dispatch_shape props isFeaturePhone cellFocusMode w i Hwf Hi) as [Hs Han].
  apply focusShape_sameCells in Hs. destruct Hs as (Hb & Hd & _ & Hdesc).
  fold o in Hb, Hd, Hdesc, Han.
  split; [done|]. split; [done|]. split; [|done].
  intros id. unfold storedCell. by rewrite Hd.
Qed.

(** In every reachable state each button's aria-label is the description of
    the cell stored for it; in particular the label of a cell that is not
    revealed is "flag" or "hidden" and says nothing about mines. *)
Theorem labels_follow_cells (history : list Input) (id : nat) :
  (id < Z.to_nat (width props * height props))%nat ->
  let w := run props isFeaturePhone cellFocusMode history in
  exists cell,
    storedCell w id = Some cell /\
    description w id = Some (cellState cell) /\
    (revealed cell = false ->
     description w id = Some (if flagged cell then "flag" else "hidden")%string).
Proof.
  intros Hid w. assert (wf props w) as Hwf by (by apply run_wf).
  destruct (run_consistent props isFeaturePhone cellFocusMode history
              width_pos height_pos) as [Hl _].
  assert (id < length (heap w))%nat as Hlt.
  { destruct Hwf as (_ & _ & Hok & _). pose proof (ok_size _ _ Hok). lia. }
  destruct (Hl id Hlt) as (cell & Hs & Hd). exists cell. subst w.
  split; [done|]. split; [done|]. intros Hrev. rewrite Hd.
  unfold cellState. by rewrite Hrev.
Qed.

(** In every reachable state the focus indicator is either cleared or on the
    cell of the grid button that holds platform focus; it never stays on a
    cell that has lost focus, and it is cleared whenever focus is outside
    the grid. *)
Theorem indicator_follows_focus (history : list Input) :
  let w := run props isFeaturePhone cellFocusMode history in
  (rendererFocus w = (-1, -1) \/
   position w (activeElement w) = Some (rendererFocus w)) /\
  (inGrid w (activeElement w) = false -> rendererFocus w = (-1, -1)).
Proof.
  intros w.
  destruct (run_consistent props isFeaturePhone cellFocusMode history
              width_pos height_pos) as [_ Hi].
  split; [done|]. intros Hout. destruct Hi as [Hc|Hp]; [done|].
  fold w in Hp. by rewrite (position_not_inGrid w _ Hout) in Hp.
Qed.

End Extras.

Section Compositions.

Variable props : Props.
Variables isFeaturePhone cellFocusMode : bool.
Hypothesis width_pos : 0 < width props.
Hypothesis height_pos : 0 < height props.

Lemma moved_roving (w : World) (t : nat) :
  wf props w -> (t < length (heap w))%nat ->
  wf props (moved props w t) /\ roving (moved props w t) t /\
  origin (moved props w t) = Some (Button t).
Proof.
  intros Hwf Ht. destruct (wf_tab_stop props w Hwf) as (t0 & c0 & (Hcur & _) & _).
  destruct (wf_focused props w (Button t0) t (Some (Button t))
              (coordinates props t) Hwf Hcur Ht) as [Hwf' Hrov].
  unfold moved. rewrite Hcur. cbn [default]. split; [done|]. split; [done|].
  pose proof (data_inGrid props w t Hwf Ht) as Hin.
  unfold origin. cbn [activeElement inGrid _additionalButtonData] in *.
  by rewrite Hin.
Qed.

Lemma origin_coordinates (w : World) (n : nat) (x y : Z) :
  wf props w -> origin w = Some (Button n) -> (n < length (heap w))%nat ->
  position w (origin w) = Some (x, y) -> coordinates props n = (x, y).
Proof.
  intros (_ & _ & Hok & _) Ho Hn Hpos. rewrite Ho in Hpos. cbn [position] in Hpos.
  destruct (ok_data _ _ Hok _ Hn) as [c Hc]. rewrite Hc in Hpos.
  cbn [fmap option_fmap option_map fst] in Hpos. congruence.
Qed.

(** Two moves in a row that both stay on the board leave exactly the state
    of the single move by the sum of the offsets. *)
Theorem moves_compose (history : list Input) (dx1 dy1 dx2 dy2 x y : Z) :
  let w := run props isFeaturePhone cellFocusMode history in
  position w (origin w) = Some (x, y) ->
  inside props (x + dx1) (y + dy1) = true ->
  inside props (x + dx1 + dx2) (y + dy1 + dy2) = true ->
  final (moveFocusByKey props dx2 dy2 (final (moveFocusByKey props dx1 dy1 w)))
  = final (moveFocusByKey props (dx1 + dx2) (dy1 + dy2) w).
Proof.
  intros w Hpos Hi1 Hi2. assert (wf props w) as Hwf by (by apply run_wf).
  destruct (moveFocusByKey_final props w dx1 dy1 Hwf) as (n & Ho & Hn & H1).
  pose proof (origin_coordinates w n x y Hwf Ho Hn Hpos) as Hco.
  cbv zeta in H1. rewrite Hco in H1. cbn [fst snd] in H1.
  destruct H1 as (_ & Hwf1 & _ & Hin1 & _).
  destruct (Hin1 Hi1) as (Ht1 & Hc1 & Hf1). rewrite Hf1 in *.
  destruct (moved_roving w _ Hwf Ht1) as (_ & _ & Ho1).
  destruct (moveFocusByKey_final props _ dx2 dy2 Hwf1) as (n' & Ho' & Hn' & H2).
  rewrite Ho1 in Ho'. injection Ho' as <-.
  cbv zeta in H2. rewrite Hc1 in H2. cbn [fst snd] in H2.
  destruct H2 as (_ & _ & _ & Hin2 & _).
  destruct (Hin2 Hi2) as (_ & _ & ->).
  rewrite moved_moved by done.
  destruct (moveFocusByKey_final props w (dx1 + dx2) (dy1 + dy2) Hwf)
    as (n'' & Ho'' & _ & H3).
  rewrite Ho in Ho''. injection Ho'' as <-.
  cbv zeta in H3. rewrite Hco in H3. cbn [fst snd] in H3.
  rewrite !Z.add_assoc in H3.
  destruct H3 as (_ & _ & _ & Hin3 & _).
  by destruct (Hin3 Hi2) as (_ & _ & ->).
Qed.

(** A move by (0, 0) -- what Tab key-up on the table and, on a constrained
    device, digit key-up on the window do -- puts the tab stop, platform
    focus and the focus indicator on the button the move starts from: the
    focused grid button, or the tab stop when focus is outside the grid.  It
    never fails, doing it again changes nothing, and a key-up on the table
    of any key but Tab does nothing. *)
Theorem refocus_fixes_tab_stop (history : list Input) :
  let w := run props isFeaturePhone cellFocusMode history in
  let o := moveFocusByKey props 0 0 w in
  exists n,
    origin w = Some (Button n) /\
    result o = Normal tt /\
    final o = moved props w n /\
    _currentTabableBtn (final o) = origin w /\
    activeElement (final o) = origin w /\
    Some (rendererFocus (final o)) = position w (origin w) /\
    tabStops (final o) = [n] /\
    final (moveFocusByKey props 0 0 (final o)) = final o /\
    dispatch props isFeaturePhone cellFocusMode (KeyUpOnTable "Tab") w = o /\
    (forall key, String.eqb key "Tab" = false ->
       dispatch props isFeaturePhone cellFocusMode (KeyUpOnTable key) w
       = mkOutcome (Normal tt) w []) /\
    (forall key, key = "9"%string \/ key = "7"%string \/
                 key = "5"%string \/ key = "0"%string ->
       dispatch props isFeaturePhone cellFocusMode (KeyUpOnWindow key) w
       = if isFeaturePhone || cellFocusMode then o else mkOutcome (Normal tt) w []).
Proof.
  intros w o. assert (wf props w) as Hwf by (by apply run_wf).
  assert (forall w0, wf props w0 ->
    exists n, origin w0 = Some (Button n) /\ (n < length (heap w0))%nat /\
      result (moveFocusByKey props 0 0 w0) = Normal tt /\
      final (moveFocusByKey props 0 0 w0) = moved props w0 n /\
      position w0 (origin w0) = Some (coordinates props n)) as Hzero.
  { intros w0 Hwf0.
    destruct (moveFocusByKey_final props w0 0 0 Hwf0) as (n & Ho & Hn & H0).
    cbv zeta in H0. rewrite !Z.add_0_r in H0.
    destruct (coordinates_inside props w0 n Hwf0 Hn) as (Hx & Hy & Hidx).
    destruct H0 as (Hr & _ & _ & Hin & _).
    destruct Hin as (_ & _ & Hf); [by apply inside_spec|].
    replace (Z.to_nat _) with n in Hf by lia.
    exists n. split; [done|]. split; [done|]. split; [done|]. split; [done|].
    rewrite Ho. cbn [position]. destruct Hwf0 as (_ & _ & Hok & _).
    destruct (ok_data _ _ Hok _ Hn) as [c ->]. done. }
  destruct (Hzero w Hwf) as (n & Ho & Hn & Hr & Hf & Hp). fold o in Hr, Hf.
  destruct (moved_roving w n Hwf Hn) as (Hwf1 & Hrov & Ho1).
  exists n. split; [done|]. split; [done|]. split; [done|].
  rewrite Hp, Hf, Ho. split; [reflexivity|]. split; [reflexivity|].
  split; [reflexivity|].
  split; [by apply roving_tabStops|]. split.
  { destruct (Hzero _ Hwf1) as (n' & Ho' & _ & _ & -> & _).
    rewrite Ho1 in Ho'. injection Ho' as <-. by apply moved_moved. }
  split; [reflexivity|]. split.
  { intros key Hkey. cbn [dispatch]. unfold onKeyUpOnTable. by rewrite Hkey. }
  intros key Hkey. cbn [dispatch]. unfold _onKeyUp.
  destruct (isFeaturePhone || cellFocusMode); cbn [andb]; [|reflexivity].
  destruct Hkey as [-> | [-> | [-> | ->]]]; reflexivity.
Qed.

(** The activation callback receives the last cell the sync bridge stored:
    after a batch of in-bounds deltas, Enter on the focused grid button
    passes that button's coordinate and the cell of the last delta that
    targeted it (its previous cell if none did), with isAlternate false,
    after preventing the default, and changes no state. *)
Theorem activation_passes_synced_cell (history : list Input)
        (changes : list GridChange) (n : nat) :
  forallb (inBounds props) changes = true ->
  (n < Z.to_nat (width props * height props))%nat ->
  let w := run props isFeaturePhone cellFocusMode history in
  let w' := run props isFeaturePhone cellFocusMode
              (history ++ [GameChange {| gridChanges := Some changes |};
                           PlatformFocus (Some (Button n))]) in
  let o := dispatch props isFeaturePhone cellFocusMode (KeyDownOnTable "Enter") w' in
  exists cell,
    Some cell = match lastChange props changes n with
                | Some c => Some c
                | None => storedCell w n
                end /\
    trace o = [PreventDefault; OnCellClick (Some (coordinates props n, cell)) false] /\
    final o = w' /\ result o = Normal tt.
Proof.
  intros Hin Hn w w' o. assert (wf props w) as Hwf by (by apply run_wf).
  assert (n < length (heap w))%nat as Hlt.
  { destruct Hwf as (_ & _ & Hok & _). pose proof (ok_size _ _ Hok). lia. }
  assert (forallb (resolvable props) changes = true) as Hres.
  { apply forallb_forall. intros c Hc. apply inBounds_resolvable.
    rewrite forallb_forall in Hin. by apply Hin. }
  pose proof (doManualDomHandling_wp props w changes Hwf Hres) as Hwp.
  apply wp_elim in Hwp. destruct Hwp as (_ & Hfa & _ & Hwfa).
  destruct (applyChanges_read props w changes n Hwf Hlt) as [_ Hstored].
  assert (w' = final (dispatch props isFeaturePhone cellFocusMode
                        (PlatformFocus (Some (Button n)))
                        (applyChanges props changes w))) as Hw'.
  { unfold w'. rewrite run_app. cbn [fold_left dispatch]. fold w. by rewrite Hfa. }
  rewrite Hfa in Hwfa.
  destruct (platformFocus_shape props isFeaturePhone cellFocusMode _
              (Some (Button n)) Hwfa) as (Hs & Hact & _).
  apply focusShape_sameCells in Hs. destruct Hs as (_ & Hd & _).
  rewrite <- Hw' in Hact, Hd.
  pose proof Hwfa as (_ & _ & Hoka & _).
  destruct (ok_data _ _ Hoka n) as [cell Hcell];
    [by rewrite applyChanges_length|].
  exists cell. split.
  { rewrite <- Hstored. unfold storedCell. by rewrite Hcell. }
  unfold o. cbn [dispatch]. rewrite (onKeyDown_activate props w' "Enter") by (by left).
  rewrite Hact, Hd, Hcell. done.
Qed.

(** When platform focus leaves a grid button, the blur listener registered
    on every button clears the focus indicator; the tab stop and every
    attribute stay as they were, so the grid remembers where focus was. *)
Theorem focus_leaving_clears_indicator (history : list Input) (el : option Element) :
  let w := run props isFeaturePhone cellFocusMode history in
  inGrid w (activeElement w) = true ->
  bool_decide (activeElement w = el) = false ->
  let o := dispatch props isFeaturePhone cellFocusMode (PlatformFocus el) w in
  result o = Normal tt /\
  final o = set_activeElement el (set_rendererFocus (-1, -1) w) /\
  trace o = [RendererSetFocus (-1) (-1)] /\
  tabStops (final o) = tabStops w /\
  _currentTabableBtn (final o) = _currentTabableBtn w.
Proof.
  intros w Hin Hne o. assert (wf props w) as Hwf by (by apply run_wf).
  unfold o. cbn [dispatch]. unfold fireBlur, removeFocusVisual, renderer_setFocus.
  apply (wp_elim _ _ (fun r w' tr =>
    r = Normal tt /\ w' = set_activeElement el (set_rendererFocus (-1, -1) w) /\
    tr = [RendererSetFocus (-1) (-1)] /\ tabStops w' = tabStops w /\
    _currentTabableBtn w' = _currentTabableBtn w)).
  wp_run. rewrite Hne. wp_run.
  destruct (activeElement w) as [[a|a]|] eqn:Hact; try done. wp_run.
  destruct (inGrid_data props w a Hwf Hin) as (Hlt & _).
  destruct (lookup_lt_is_Some_2 _ _ Hlt) as [b Hb]. rewrite Hb.
  destruct Hwf as (_ & _ & Hok & _). rewrite (ok_blur _ _ Hok _ _ Hb). wp_run.
  done.
Qed.

(** On a constrained-input device a pointer-up that follows a pointer move
    over a grid button activates that hovered button, exactly once and
    without moving focus again, whichever grid button the pointer-up itself
    reports as its target. *)
Theorem click_after_hover_activates_hovered (history : list Input)
        (t u : nat) (button : Z) :
  isFeaturePhone || cellFocusMode = true ->
  (t < Z.to_nat (width props * height props))%nat ->
  (u < Z.to_nat (width props * height props))%nat ->
  let w := run props isFeaturePhone cellFocusMode history in
  let hovered := final (dispatch props isFeaturePhone cellFocusMode
                          (MouseMoveOnTable (Button t)) w) in
  let o := dispatch props isFeaturePhone cellFocusMode
             (MouseUpOnTable (Button u) button) hovered in
  result o = Normal tt /\
  final o = hovered /\
  trace o = [PreventDefault;
             OnCellClick (buttonData w (Some (Button t))) (button =? 2)] /\
  is_Some (buttonData w (Some (Button t))).
Proof.
  intros Hflag Ht Hu w hovered o. assert (wf props w) as Hwf by (by apply run_wf).
  assert (t < length (heap w))%nat as Hlt.
  { destruct Hwf as (_ & _ & Hok & _). pose proof (ok_size _ _ Hok). lia. }
  assert (u < length (heap w))%nat as Hlu.
  { destruct Hwf as (_ & _ & Hok & _). pose proof (ok_size _ _ Hok). lia. }
  pose proof (data_inGrid props w t Hwf Hlt) as Hin.
  destruct (inGrid_data props w t Hwf Hin) as (_ & c & Hc).
  pose proof (moveFocusWithMouse_grid props w t Hwf Hin) as Hwp.
  apply wp_elim in Hwp. destruct Hwp as (_ & Hwf1 & _ & Hh & _).
  assert (hovered = moved props w t) as Hhov.
  { unfold hovered. cbn [dispatch]. by rewrite Hflag. }
  rewrite Hh, <- Hhov in Hwf1. clear Hh.
  assert (inGrid hovered (Some (Button u)) = true) as Hinu.
  { apply (data_inGrid props); [done|]. rewrite Hhov. unfold moved. cbn [heap].
    by rewrite length_focused_heap. }
  pose proof (onMouseUp_grid props isFeaturePhone cellFocusMode hovered u button
                Hwf1 Hinu) as Hup.
  apply wp_elim in Hup. cbv beta in Hup. destruct Hup as (Hr & _ & _ & Hcase).
  rewrite Hflag, negb_involutive in Hcase.
  assert (activeElement hovered = Some (Button t)) as Hact by (by rewrite Hhov).
  assert (_additionalButtonData hovered = _additionalButtonData w) as Hd
    by (by rewrite Hhov).
  rewrite Hact in Hcase. cbn [inGrid andb] in Hcase. rewrite Hd in Hcase.
  cbn [inGrid] in Hin. rewrite Hin in Hcase. cbn [negb] in Hcase.
  destruct Hcase as [Hf Htr]. unfold o. cbn [dispatch buttonData].
  rewrite Hc in *. done.
Qed.

(** Enter after a key move that stayed on the board activates the cell the
    move reached: the callback receives the coordinate (x+dx, y+dy) and the
    cell stored for it, once, with isAlternate false. *)
Theorem enter_after_move_activates_target (history : list Input) (dx dy x y : Z) :
  let w := run props isFeaturePhone cellFocusMode history in
  position w (origin w) = Some (x, y) ->
  inside props (x + dx) (y + dy) = true ->
  let w1 := final (moveFocusByKey props dx dy w) in
  let o := dispatch props isFeaturePhone cellFocusMode (KeyDownOnTable "Enter") w1 in
  exists cell,
    storedCell w (Z.to_nat (x + dx + (y + dy) * width props)) = Some cell /\
    trace o = [PreventDefault; OnCellClick (Some (x + dx, y + dy, cell)) false] /\
    final o = w1 /\ result o = Normal tt.
Proof.
  intros w Hpos Hi w1 o. assert (wf props w) as Hwf by (by apply run_wf).
  destruct (moveFocusByKey_final props w dx dy Hwf) as (n & Ho & Hn & H1).
  pose proof (origin_coordinates w n x y Hwf Ho Hn Hpos) as Hco.
  cbv zeta in H1. rewrite Hco in H1. cbn [fst snd] in H1.
  destruct H1 as (_ & _ & _ & Hin1 & _).
  destruct (Hin1 Hi) as (Ht & Hc & Hf). fold w1 in Hf.
  pose proof Hwf as (_ & _ & Hok & _).
  destruct (ok_data _ _ Hok _ Ht) as [cell Hcell]. rewrite Hc in Hcell.
  exists cell. split; [by unfold storedCell; rewrite Hcell|].
  unfold o. cbn [dispatch]. rewrite (onKeyDown_activate props w1 "Enter") by (by left).
  rewrite Hf. unfold moved. cbn [activeElement _additionalButtonData].
  by rewrite Hcell.
Qed.

End Compositions.

Section Reachability.

Variable props : Props.
Variables isFeaturePhone cellFocusMode : bool.
Hypothesis width_pos : 0 < width props.
Hypothesis height_pos : 0 < height props.

Lemma origin_inside (w : World) (x y : Z) :
  wf props w -> position w (origin w) = Some (x, y) ->
  0 <= x < width props /\ 0 <= y < height props.
Proof.
  intros Hwf Hpos. destruct (origin_button props w Hwf) as (n & Ho & Hn & _).
  pose proof (origin_coordinates props w n x y Hwf Ho Hn Hpos) as Hco.
  destruct (coordinates_inside props w n Hwf Hn) as (Hx & Hy & _).
  rewrite Hco in Hx, Hy. done.
Qed.

(** One key move that stays on the board, seen from a state [w0] that the
    current state is, or is one focus move away from. *)
Lemma move_step (w0 w : World) (x y h v : Z) :
  wf props w0 -> wf props w ->
  position w (origin w) = Some (x, y) ->
  (w = w0 \/ exists t, (t < length (heap w0))%nat /\ w = moved props w0 t) ->
  inside props (x + h) (y + v) = true ->
  let t := Z.to_nat (x + h + (y + v) * width props) in
  let w' := final (moveFocusByKey props h v w) in
  wf props w' /\ position w' (origin w') = Some (x + h, y + v) /\
  (t < length (heap w0))%nat /\ w' = moved props w0 t.
Proof.
  intros Hwf0 Hwf Hpos Hrel Hi t w'.
  destruct (moveFocusByKey_final props w h v Hwf) as (n & Ho & Hn & H1).
  pose proof (origin_coordinates props w n x y Hwf Ho Hn Hpos) as Hco.
  cbv zeta in H1. rewrite Hco in H1. cbn [fst snd] in H1.
  destruct H1 as (_ & Hwf' & _ & Hin & _).
  destruct (Hin Hi) as (Ht & Hc & Hf). fold t in Ht, Hc, Hf. fold w' in Hf, Hwf'.
  split; [done|]. split.
  { rewrite Hf. destruct (moved_roving props w t Hwf Ht) as (_ & _ & ->).
    unfold moved. cbn [position _additionalButtonData].
    destruct Hwf as (_ & _ & Hok & _). destruct (ok_data _ _ Hok _ Ht) as [c ->].
    cbn [fmap option_fmap option_map fst]. by rewrite Hc. }
  destruct Hrel as [-> | (t' & Ht' & ->)]; [done|].
  unfold moved in Ht. cbn [heap] in Ht. rewrite length_focused_heap in Ht.
  split; [done|]. rewrite Hf. by apply moved_moved.
Qed.

(** [n] presses of one arrow key, all of them on the board. *)
Lemma walk (key : string) (h v : Z) :
  (forall w, dispatch props isFeaturePhone cellFocusMode (KeyDownOnTable key) w
             = moveFocusByKey props h v w) ->
  -1 <= h <= 1 -> -1 <= v <= 1 ->
  forall (n : nat) (w0 w : World) (x y x' y' : Z),
    wf props w0 -> wf props w ->
    position w (origin w) = Some (x, y) ->
    (w = w0 \/ exists t, (t < length (heap w0))%nat /\ w = moved props w0 t) ->
    x' = x + Z.of_nat n * h -> y' = y + Z.of_nat n * v ->
    inside props x' y' = true ->
    let w' := fold_left
                (fun w i => final (dispatch props isFeaturePhone cellFocusMode i w))
                (repeat (KeyDownOnTable key) n) w in
    wf props w' /\ position w' (origin w') = Some (x', y') /\
    ((n = 0%nat /\ w' = w) \/
     ((Z.to_nat (x' + y' * width props) < length (heap w0))%nat /\
      w' = moved props w0 (Z.to_nat (x' + y' * width props)))).
Proof.
  intros Hkey Hh Hv. induction n as [|m IH];
    intros w0 w x y x' y' Hwf0 Hwf Hpos Hrel Hx' Hy' Hi w'.
  - assert (x' = x) as -> by lia. assert (y' = y) as -> by lia.
    split; [done|]. split; [done|]. left. done.
  - destruct (origin_inside w x y Hwf Hpos) as [Hx Hy].
    apply inside_spec in Hi.
    assert (inside props (x + h) (y + v) = true) as Hi1.
    { apply inside_spec.
      assert (h = -1 \/ h = 0 \/ h = 1) as [-> | [-> | ->]] by lia;
        assert (v = -1 \/ v = 0 \/ v = 1) as [-> | [-> | ->]] by lia; lia. }
    destruct (move_step w0 w x y h v Hwf0 Hwf Hpos Hrel Hi1)
      as (Hwf1 & Hpos1 & Ht1 & Hw1).
    unfold w'. cbn [repeat fold_left]. rewrite Hkey.
    destruct (IH w0 (final (moveFocusByKey props h v w)) (x + h) (y + v) x' y'
                Hwf0 Hwf1 Hpos1) as (Hwf2 & Hpos2 & Hrel2).
    + right. by eexists.
    + lia.
    + lia.
    + by apply inside_spec.
    + split; [done|]. split; [done|]. right.
      destruct Hrel2 as [[-> Heq] | Hmoved]; [|done].
      cbn [repeat fold_left] in *.
      assert (x' = x + h) as -> by lia. assert (y' = y + v) as -> by lia. done.
Qed.

(** Every cell can be reached with the arrow keys: from the focus position
    (x0, y0), the |x - x0| + |y - y0| arrow-key presses of [route] -- along
    the row, then along the column -- put the focus position on any cell
    (x, y) of the board, and when at least one key is pressed they leave
    exactly the state of one focus move to the button y*width + x: that
    button is the tab stop, has platform focus, and carries the focus
    indicator. *)
Theorem every_cell_reachable_by_arrows (history : list Input) (x0 y0 x y : Z) :
  let w := run props isFeaturePhone cellFocusMode history in
  position w (origin w) = Some (x0, y0) ->
  inside props x y = true ->
  let keys := route x0 y0 x y in
  let w' := run props isFeaturePhone cellFocusMode
              (history ++ map KeyDownOnTable keys) in
  Z.of_nat (length keys) = Z.abs (x - x0) + Z.abs (y - y0) /\
  position w' (origin w') = Some (x, y) /\
  (x <> x0 \/ y <> y0 ->
   let t := Z.to_nat (x + y * width props) in
   w' = moved props w t /\
   _currentTabableBtn w' = Some (Button t) /\
   activeElement w' = Some (Button t) /\
   rendererFocus w' = (x, y) /\
   tabStops w' = [t]).
Proof.
  intros w Hpos Hi keys w'. assert (wf props w) as Hwf by (by apply run_wf).
  destruct (origin_inside w x0 y0 Hwf Hpos) as [Hx0 Hy0].
  pose proof Hi as Hxy. apply inside_spec in Hxy. destruct Hxy as [Hx Hy].
  split. { unfold keys, route. rewrite length_app, !repeat_length. lia. }
  set (nx := Z.to_nat (Z.abs (x - x0))). set (ny := Z.to_nat (Z.abs (y - y0))).
  assert (exists kx hx, keys = repeat kx nx ++ repeat (if y0 <=? y then "ArrowDown"%string else "ArrowUp"%string) ny
            /\ -1 <= hx <= 1 /\ x = x0 + Z.of_nat nx * hx /\
            forall w1, dispatch props isFeaturePhone cellFocusMode (KeyDownOnTable kx) w1
                       = moveFocusByKey props hx 0 w1) as (kx & hx & Hkeys & Hhx & Hxe & Hkx).
  { unfold keys, route. fold nx ny. destruct (Z.leb_spec x0 x).
    - exists "ArrowRight"%string, 1. split; [done|]. split; [lia|].
      split; [unfold nx; lia|]. reflexivity.
    - exists "ArrowLeft"%string, (-1). split; [done|]. split; [lia|].
      split; [unfold nx; lia|]. reflexivity. }
  assert (exists ky hy, keys = repeat kx nx ++ repeat ky ny
            /\ -1 <= hy <= 1 /\ y = y0 + Z.of_nat ny * hy /\
            forall w1, dispatch props isFeaturePhone cellFocusMode (KeyDownOnTable ky) w1
                       = moveFocusByKey props 0 hy w1) as (ky & hy & Hkeys' & Hhy & Hye & Hky).
  { rewrite Hkeys. destruct (Z.leb_spec y0 y).
    - exists "ArrowDown"%string, 1. split; [done|]. split; [lia|].
      split; [unfold ny; lia|]. reflexivity.
    - exists "ArrowUp"%string, (-1). split; [done|]. split; [lia|].
      split; [unfold ny; lia|]. reflexivity. }
  clear Hkeys.
  assert (w' = fold_left
            (fun w i => final (dispatch props isFeaturePhone cellFocusMode i w))
            (repeat (KeyDownOnTable ky) ny)
            (fold_left
               (fun w i => final (dispatch props isFeaturePhone cellFocusMode i w))
               (repeat (KeyDownOnTable kx) nx) w)) as Hw'.
  { unfold w'. rewrite run_app, Hkeys', map_app, fold_left_app, !map_repeat. done. }
  destruct (walk kx hx 0 Hkx Hhx ltac:(lia) nx w w x0 y0 x y0 Hwf Hwf Hpos)
    as (Hwf1 & Hpos1 & Hrel1); [by left|done|lia|by apply inside_spec|].
  set (w1 := fold_left _ (repeat (KeyDownOnTable kx) nx) w) in *.
  destruct (walk ky 0 hy Hky ltac:(lia) Hhy ny w w1 x y0 x y Hwf Hwf1 Hpos1)
    as (Hwf2 & Hpos2 & Hrel2); [|lia|done|done|].
  { destruct Hrel1 as [[_ ->] | [Hlt ->]]; [by left|]. right. by eexists. }
  rewrite <- Hw' in Hwf2, Hpos2, Hrel2.
  split; [done|]. intros Hne t.
  assert ((t < length (heap w))%nat /\ w' = moved props w t) as [Ht Hm].
  { destruct Hrel2 as [[Hny ->] | Hdone]; [|done].
    assert (y = y0) as -> by lia.
    destruct Hrel1 as [[Hnx _] | Hdone]; [|done].
    unfold nx, ny in *. lia. }
  split; [done|]. rewrite Hm.
  destruct (moved_roving props w t Hwf Ht) as (_ & Hrov & _).
  split; [reflexivity|]. split; [reflexivity|].
  split; [unfold moved, t; cbn [rendererFocus]; apply coordinates_index; lia|].
  by apply roving_tabStops.
Qed.

(** Two notifications in a row whose deltas are all in bounds leave the
    state of one notification that carries the concatenated batch: the
    labels and stored cells depend only on the sequence of deltas, not on
    how it is split into notifications.  The animator is called once per
    notification, with that notification's batch. *)
Theorem sync_batches_compose (history : list Input) (first second : list GridChange) :
  forallb (inBounds props) first = true ->
  forallb (inBounds props) second = true ->
  let w := run props isFeaturePhone cellFocusMode history in
  let one := dispatch props isFeaturePhone cellFocusMode
               (GameChange {| gridChanges := Some (first ++ second) |}) w in
  let o1 := dispatch props isFeaturePhone cellFocusMode
              (GameChange {| gridChanges := Some first |}) w in
  let o2 := dispatch props isFeaturePhone cellFocusMode
              (GameChange {| gridChanges := Some second |}) (final o1) in
  final o2 = final one /\
  result o1 = Normal tt /\ result o2 = Normal tt /\ result one = Normal tt /\
  animatorCalls (trace o1 ++ trace o2) = [first; second] /\
  animatorCalls (trace one) = [first ++ second].
Proof.
  intros H1 H2 w one o1 o2. assert (wf props w) as Hwf by (by apply run_wf).
  assert (forall l, forallb (inBounds props) l = true ->
                    forallb (resolvable props) l = true) as Hres.
  { intros l Hl. apply forallb_forall. intros c Hc. apply inBounds_resolvable.
    rewrite forallb_forall in Hl. by apply Hl. }
  assert (forallb (inBounds props) (first ++ second) = true) as H12
    by (by rewrite forallb_app, H1, H2).
  pose proof (doManualDomHandling_wp props w first Hwf (Hres _ H1)) as Hw1.
  apply wp_elim in Hw1. destruct Hw1 as (Hr1 & Hf1 & Ht1 & Hwf1).
  pose proof (doManualDomHandling_wp props _ second Hwf1 (Hres _ H2)) as Hw2.
  apply wp_elim in Hw2. destruct Hw2 as (Hr2 & Hf2 & Ht2 & _).
  pose proof (doManualDomHandling_wp props w (first ++ second) Hwf (Hres _ H12)) as Hw3.
  apply wp_elim in Hw3. destruct Hw3 as (Hr3 & Hf3 & Ht3 & _).
  unfold one, o2, o1. cbn [dispatch].
  split. { rewrite Hf2, Hf1, Hf3. unfold applyChanges. by rewrite fold_left_app. }
  split; [done|]. split; [done|]. split; [done|].
  rewrite Ht1, Ht2, Ht3. unfold animatorCalls. rewrite !omap_app.
  fold (animatorCalls (map (labelWrite props) first)).
  fold (animatorCalls (map (labelWrite props) second)).
  fold (animatorCalls (map (labelWrite props) (first ++ second))).
  rewrite !animatorCalls_labelWrites. split; reflexivity.
Qed.

End Reachability.

(** * Examples for the further properties *)

Lemma mount_empty_grid_throws_witness :
  componentDidMount {| width := 0; height := 3 |} unmounted
  = mkOutcome TypeError unmounted [].
Proof. apply mount_empty_grid_throws. left. simpl. lia. Defined.

Lemma createTable_builds_grid_witness :
  buttonData (final (componentDidMount board2x2 unmounted)) (Some (Button 3))
  = Some (1, 1, defaultCell).
Proof.
  pose proof (createTable_builds_grid board2x2
                ltac:(reflexivity) ltac:(reflexivity) 1 1
                ltac:(simpl; lia) ltac:(simpl; lia)) as H.
  cbv zeta in H. destruct H as (_ & _ & _ & H & _). exact H.
Defined.

Lemma coordinates_never_change_witness :
  Z.of_nat (length (_buttons (run board3x3 false false [KeyDownOnTable "9"])))
  = width board3x3 * height board3x3.
Proof.
  pose proof (coordinates_never_change board3x3 false false
                ltac:(reflexivity) ltac:(reflexivity) [KeyDownOnTable "9"]) as H.
  cbv zeta in H. destruct H as (H & _). exact H.
Defined.

Lemma sync_leaves_focus_alone_witness :
  let w := run board2x2 false false [KeyDownOnTable "9"] in
  tabStops (final (dispatch board2x2 false false
                     (GameChange {| gridChanges := Some [(1, 1, revealedThree)] |}) w))
  = tabStops w.
Proof.
  pose proof (sync_leaves_focus_alone board2x2 false false
                ltac:(reflexivity) ltac:(reflexivity) [KeyDownOnTable "9"]
                {| gridChanges := Some [(1, 1, revealedThree)] |}) as H.
  cbv zeta in H. destruct H as (_ & H & _). exact H.
Defined.

Lemma input_leaves_cells_alone_witness :
  let w := run board2x2 false false
             [GameChange {| gridChanges := Some [(1, 1, revealedThree)] |}] in
  _additionalButtonData (final (dispatch board2x2 false false (KeyDownOnTable "9") w))
  = _additionalButtonData w.
Proof.
  pose proof (input_leaves_cells_alone board2x2 false false
                ltac:(reflexivity) ltac:(reflexivity)
                [GameChange {| gridChanges := Some [(1, 1, revealedThree)] |}]
                (KeyDownOnTable "9") ltac:(reflexivity)) as H.
  cbv zeta in H. destruct H as (H & _). exact H.
Defined.

Lemma labels_follow_cells_witness :
  let w := run board2x2 false false
             [GameChange {| gridChanges := Some [(1, 1, hiddenFlag)] |}] in
  exists cell, storedCell w 3 = Some cell /\ description w 3 = Some (cellState cell).
Proof.
  pose proof (labels_follow_cells board2x2 false false
                ltac:(reflexivity) ltac:(reflexivity)
                [GameChange {| gridChanges := Some [(1, 1, hiddenFlag)] |}] 3%nat
                ltac:(vm_compute; lia)) as H.
  cbv zeta in H. destruct H as (cell & H1 & H2 & _). exists cell. split; assumption.
Defined.

Lemma indicator_follows_focus_witness :
  let w := run board3x3 true false [MouseMoveOnTable (Button 4)] in
  rendererFocus w = (-1, -1) \/
  position w (activeElement w) = Some (rendererFocus w).
Proof.
  pose proof (indicator_follows_focus board3x3 true false
                ltac:(reflexivity) ltac:(reflexivity)
                [MouseMoveOnTable (Button 4)]) as H.
  cbv zeta in H. destruct H as (H & _). exact H.
Defined.

Lemma moves_compose_witness :
  let w := run board3x3 false false [] in
  final (moveFocusByKey board3x3 1 1 (final (moveFocusByKey board3x3 1 0 w)))
  = final (moveFocusByKey board3x3 (1 + 1) (0 + 1) w).
Proof.
  pose proof (moves_compose board3x3 false false
                ltac:(reflexivity) ltac:(reflexivity) [] 1 0 1 1 0 0
                ltac:(vm_compute; reflexivity) ltac:(reflexivity)
                ltac:(reflexivity)) as H.
  cbv zeta in H. exact H.
Defined.

Lemma refocus_fixes_tab_stop_witness :
  exists n,
    tabStops (final (moveFocusByKey board3x3 0 0
                       (run board3x3 false false [KeyDownOnTable "0"]))) = [n].
Proof.
  pose proof (refocus_fixes_tab_stop board3x3 false false
                ltac:(reflexivity) ltac:(reflexivity) [KeyDownOnTable "0"]) as H.
  cbv zeta in H. destruct H as (n & _ & _ & _ & _ & _ & _ & H & _).
  exists n. exact H.
Defined.

Lemma activation_passes_synced_cell_witness :
  exists cell,
    trace (dispatch board2x2 false false (KeyDownOnTable "Enter")
             (run board2x2 false false
                ([] ++ [GameChange {| gridChanges := Some [(1, 1, revealedThree)] |};
                        PlatformFocus (Some (Button 3))])))
    = [PreventDefault; OnCellClick (Some (coordinates board2x2 3, cell)) false].
Proof.
  pose proof (activation_passes_synced_cell board2x2 false false
                ltac:(reflexivity) ltac:(reflexivity)
                [] [(1, 1, revealedThree)] 3%nat
                ltac:(reflexivity) ltac:(vm_compute; lia)) as H.
  cbv zeta in H. destruct H as (cell & _ & H & _). exists cell. exact H.
Defined.

Lemma focus_leaving_clears_indicator_witness :
  trace (dispatch board3x3 false false (PlatformFocus (Some body))
           (run board3x3 false false [PlatformFocus (Some (Button 4))]))
  = [RendererSetFocus (-1) (-1)].
Proof.
  pose proof (focus_leaving_clears_indicator board3x3 false false
                ltac:(reflexivity) ltac:(reflexivity)
                [PlatformFocus (Some (Button 4))] (Some body)
                ltac:(vm_compute; reflexivity)
                ltac:(vm_compute; reflexivity)) as H.
  cbv zeta in H. destruct H as (_ & _ & H & _). exact H.
Defined.

Lemma click_after_hover_activates_hovered_witness :
  let w := run board3x3 true false [] in
  let hovered := final (dispatch board3x3 true false (MouseMoveOnTable (Button 8)) w) in
  final (dispatch board3x3 true false (MouseUpOnTable (Button 0) 0) hovered) = hovered.
Proof.
  pose proof (click_after_hover_activates_hovered board3x3 true false
                ltac:(reflexivity) ltac:(reflexivity) [] 8%nat 0%nat 0
                ltac:(reflexivity) ltac:(vm_compute; lia)
                ltac:(vm_compute; lia)) as H.
  cbv zeta in H. destruct H as (_ & H & _). exact H.
Defined.

Lemma enter_after_move_activates_target_witness :
  exists cell,
    trace (dispatch board3x3 false false (KeyDownOnTable "Enter")
             (final (moveFocusByKey board3x3 1 0 (run board3x3 false false []))))
    = [PreventDefault; OnCellClick (Some (0 + 1, 0 + 0, cell)) false].
Proof.
  pose proof (enter_after_move_activates_target board3x3 false false
                ltac:(reflexivity) ltac:(reflexivity) [] 1 0 0 0
                ltac:(vm_compute; reflexivity) ltac:(reflexivity)) as H.
  cbv zeta in H. destruct H as (cell & _ & H & _). exists cell. exact H.
Defined.

Lemma every_cell_reachable_by_arrows_witness :
  let w' := run board3x3 false false ([] ++ map KeyDownOnTable (route 0 0 2 1)) in
  position w' (origin w') = Some (2, 1).
Proof.
  pose proof (every_cell_reachable_by_arrows board3x3 false false
                ltac:(reflexivity) ltac:(reflexivity) [] 0 0 2 1
                ltac:(vm_compute; reflexivity) ltac:(reflexivity)) as H.
  cbv zeta in H. destruct H as (_ & H & _). exact H.
Defined.

Lemma sync_batches_compose_witness :
  let w := run board2x2 false false [] in
  final (dispatch board2x2 false false
           (GameChange {| gridChanges := Some [(0, 1, hiddenFlag)] |})
           (final (dispatch board2x2 false false
                     (GameChange {| gridChanges := Some [(1, 1, revealedThree)] |}) w)))
  = final (dispatch board2x2 false false
             (GameChange {| gridChanges :=
                Some ([(1, 1, revealedThree)] ++ [(0, 1, hiddenFlag)]) |}) w).
Proof.
  pose proof (sync_batches_compose board2x2 false false
                ltac:(reflexivity) ltac:(reflexivity) []
                [(1, 1, revealedThree)] [(0, 1, hiddenFlag)]
                ltac:(reflexivity) ltac:(reflexivity)) as H.
  cbv zeta in H. destruct H as (H & _). exact H.
Defined.
